(** * Voicemail Main finite state machine (lib/fsm.js)

    A shallow embedding of the session state machine that drives one call
    leg: answer, authenticate against a mailbox, browse messages through
    DTMF input, terminate on hangup. The revision embedded is the latest
    one: the grammar keeps its pattern rule under [regex.match] and
    [regex.action], 'ready' and 'changingFolder' handle [previousMenu] and
    [repeatMenu], and every step is logged. machina's [transition],
    [handle] and [deferUntilTransition] are embedded as far as the state
    table uses them: [handle] looks the input type up in the table of the
    current state, where it also finds the hooks of the state and what the
    table inherits. The channel is a Node [EventEmitter].

    The file follows the source top-down:
    - [Regex]: the fragment of JavaScript regular expressions the input
      grammar uses, with a derivative matcher and the unanchored search
      performed by [String.prototype.match];
    - the input grammar ([inputs.mailboxReader]) and the resolver part of
      [dtmfHandler];
    - the fsm instance and the listeners on the channel, the machina
      operations [transition], [handle], [deferUntilTransition] and the
      replay of deferred input, the state handler tables, the promise
      continuations;
    - the event semantics ([step], [run]) and the properties of the
      session: those that hold under any grammar, and those that need a
      grammar whose action names are names of action handlers
      ([actions_only]). *)

From Stdlib Require Import Ascii String List Bool Arith Lia.
From stdpp Require Import base tactics option list gmap strings.
Import ListNotations.
Local Open Scope string_scope.
Local Open Scope list_scope.

(* ===================================================================== *)
(** ** Regular expressions *)
(* ===================================================================== *)

Module Regex.

(** The compiled form of a pattern source such as ['\\d{4}']. *)
Inductive re : Type :=
| Fail : re                      (* matches nothing: [[]] *)
| Eps : re                       (* the empty pattern *)
| Chr : ascii -> re              (* a literal character *)
| Digit : re                     (* [\d] *)
| Any : re                       (* [.] *)
| Seq : re -> re -> re           (* juxtaposition *)
| Alt : re -> re -> re           (* [|] *)
| Star : re -> re.               (* [*] *)

(** [r{n}] *)
Fixpoint Rep (n : nat) (r : re) : re :=
  match n with
  | O => Eps
  | S O => r
  | S n' => Seq r (Rep n' r)
  end.

Definition is_digit (c : ascii) : bool :=
  let n := nat_of_ascii c in Nat.leb 48 n && Nat.leb n 57.

(** Line feed and carriage return, which [.] does not match. *)
Definition is_line_terminator (c : ascii) : bool :=
  let n := nat_of_ascii c in Nat.eqb n 10 || Nat.eqb n 13.

(** Declarative meaning: the words a pattern denotes. *)
Inductive matches : re -> list ascii -> Prop :=
| MEps : matches Eps []
| MChr c : matches (Chr c) [c]
| MDigit c : is_digit c = true -> matches Digit [c]
| MAny c : is_line_terminator c = false -> matches Any [c]
| MSeq r1 r2 w1 w2 :
    matches r1 w1 -> matches r2 w2 -> matches (Seq r1 r2) (w1 ++ w2)
| MAltL r1 r2 w : matches r1 w -> matches (Alt r1 r2) w
| MAltR r1 r2 w : matches r2 w -> matches (Alt r1 r2) w
| MStar0 r : matches (Star r) []
| MStarS r w1 w2 :
    matches r w1 -> matches (Star r) w2 -> matches (Star r) (w1 ++ w2).

Fixpoint nullable (r : re) : bool :=
  match r with
  | Fail => false
  | Eps => true
  | Chr _ => false
  | Digit => false
  | Any => false
  | Seq r1 r2 => nullable r1 && nullable r2
  | Alt r1 r2 => nullable r1 || nullable r2
  | Star _ => true
  end.

Fixpoint deriv (c : ascii) (r : re) : re :=
  match r with
  | Fail => Fail
  | Eps => Fail
  | Chr d => if Ascii.eqb c d then Eps else Fail
  | Digit => if is_digit c then Eps else Fail
  | Any => if is_line_terminator c then Fail else Eps
  | Seq r1 r2 =>
      if nullable r1
      then Alt (Seq (deriv c r1) r2) (deriv c r2)
      else Seq (deriv c r1) r2
  | Alt r1 r2 => Alt (deriv c r1) (deriv c r2)
  | Star r1 => Seq (deriv c r1) (Star r1)
  end.

(** The whole word is in the language of [r]. *)
Fixpoint whole (r : re) (w : list ascii) : bool :=
  match w with
  | [] => nullable r
  | c :: w' => whole (deriv c r) w'
  end.

(** Some prefix of the word is in the language of [r]. *)
Fixpoint prefix (r : re) (w : list ascii) : bool :=
  nullable r ||
  match w with
  | [] => false
  | c :: w' => prefix (deriv c r) w'
  end.

(** [f] holds of some suffix of the word. *)
Fixpoint some_suffix (f : list ascii -> bool) (w : list ascii) : bool :=
  f w ||
  match w with
  | [] => false
  | _ :: w' => some_suffix f w'
  end.

(** A pattern with its optional anchors [^] and [$]. *)
Record pattern : Type := Pattern {
  bol : bool;
  body : re;
  eol : bool
}.

(** [input.match(new RegExp(p))] is truthy: the pattern is found
    somewhere in the input, at the places its anchors allow. *)
Definition test (p : pattern) (input : string) : bool :=
  let w := list_ascii_of_string input in
  let here := if eol p then whole (body p) else prefix (body p) in
  if bol p then here w else some_suffix here w.

(** The whole input is a word of the pattern. *)
Definition whole_match (p : pattern) (input : string) : bool :=
  whole (body p) (list_ascii_of_string input).

(** Declaratively: some factor of the word is in the language of the
    body, and the anchors pin that factor to the ends of the word. *)
Definition found (p : pattern) (w : list ascii) : Prop :=
  exists pre mid post,
    w = pre ++ mid ++ post /\ matches (body p) mid /\
    (bol p = true -> pre = []) /\ (eol p = true -> post = []).

End Regex.

(* ===================================================================== *)
(** ** The input grammar: [getAppConfig().inputs.mailboxReader] *)
(* ===================================================================== *)

(** [regex: { match: '\\d{4}', action: 'authenticate' }] *)
Record RegexRule : Type := {
  rule_match : Regex.pattern;
  rule_action : string
}.

(** The grammar entry of one state: its optional [regex] property and its
    other own properties, which map the joined buffer to an action name.
    (A buffer equal to the word [regex] or to a name inherited from
    [Object.prototype] cannot be dialled and is left out.) *)
Record StateInputs : Type := {
  regex : option RegexRule;
  keys : gmap string string
}.

(** [if (action)]: an action name counts unless it is the empty string. *)
Definition truthy (action : string) : bool := negb (String.eqb action "").

(** The value of [action] in [dtmfHandler] once [input] is known;
    [None] is [undefined]. *)
Definition resolve (st : StateInputs) (input : string) : option string :=
  match regex st with
  | Some rule =>
      if Regex.test (rule_match rule) input
      then Some (rule_action rule)
      else keys st !! input
  | None => keys st !! input
  end.

(* ===================================================================== *)
(** ** The fsm instance *)
(* ===================================================================== *)

Inductive State : Type :=
| init | auth | waitingForAuth | ready | changingFolder | done.

#[global] Instance State_eq_dec : EqDecision State.
Proof. solve_decision. Defined.

(** The property name under which a state is looked up in the grammar. *)
Definition state_name (st : State) : string :=
  match st with
  | init => "init"
  | auth => "auth"
  | waitingForAuth => "waitingForAuth"
  | ready => "ready"
  | changingFolder => "changingFolder"
  | done => "done"
  end.

(** Asynchronous requests whose promise has not settled yet. *)
Inductive Op : Type :=
| OpAnswer                               (* channel.answer *)
| OpInit                                 (* auth.init(domain, mailboxNumber) *)
| OpAuthenticate (password : string)     (* auth.authenticate(password) *)
| OpSubmitFolder (option : string)       (* reader.submitFolder(option) *)
| OpHangup.                              (* channel.hangup *)

#[global] Instance Op_eq_dec : EqDecision Op.
Proof. solve_decision. Defined.

(** How a promise settles: with a value, or with an error of some [name]. *)
Inductive Result : Type :=
| Fulfilled (value : string)
| Rejected (name : string).

(** What reaches the session from outside. *)
Inductive Event : Type :=
| ChannelDtmfReceived (digit : string)
| StasisEnd
| Settled (op : Op) (result : Result).

(** Calls the session makes on its collaborators, in order. *)
Inductive Effect : Type :=
| ChannelAnswer
| ChannelHangup
| AuthCreate
| AuthInit (domain mailboxNumber : string)
| AuthAuthenticate (password : string)
| MailboxCreateReader
| ReaderCall (reader : nat) (method : string) (args : list string)
| LoggerError (msg : string)
| Uncaught.                     (* a TypeError nobody catches *)

#[global] Instance Effect_eq_dec : EqDecision Effect.
Proof. solve_decision. Defined.

(** The fields of the machina instance the source reads and writes,
    followed by the part of the environment the session acts on: the
    listeners of the session on the channel, the requests in flight and the
    log of effects. The channel is an [EventEmitter]: registering a second
    listener does not replace the first. All listeners of a session are
    [hangupHandler], respectively [dtmfHandler], bound to the same
    instance, so those the instance no longer refers to are only
    counted. *)
Record Fsm : Type := {
  state : State;
  buffer : list string;
  hungup : bool;
  currentHangupHandler : bool;           (* non-null *)
  currentDtmfHandler : bool;             (* non-null *)
  authContext : bool;                    (* [this.auth] is set *)
  mailbox : option string;
  reader : option nat;
  eventQueue : list (string * string);   (* deferred (inputType, argument),
                                            all until 'waitingForAuth' *)
  onStasisEnd : bool;                    (* the handler the field refers to
                                            is on the channel *)
  onChannelDtmfReceived : bool;          (* likewise for the keypad *)
  staleStasisEnd : nat;                  (* listeners of earlier registrations *)
  staleChannelDtmfReceived : nat;
  inflight : list Op;
  effects : list Effect
}.

Definition set_state (v : State) (s : Fsm) : Fsm :=
  {| state := v; buffer := buffer s; hungup := hungup s;
     currentHangupHandler := currentHangupHandler s;
     currentDtmfHandler := currentDtmfHandler s;
     authContext := authContext s; mailbox := mailbox s; reader := reader s;
     eventQueue := eventQueue s; onStasisEnd := onStasisEnd s;
     onChannelDtmfReceived := onChannelDtmfReceived s;
     staleStasisEnd := staleStasisEnd s;
     staleChannelDtmfReceived := staleChannelDtmfReceived s;
     inflight := inflight s; effects := effects s |}.

Definition set_buffer (v : list string) (s : Fsm) : Fsm :=
  {| state := state s; buffer := v; hungup := hungup s;
     currentHangupHandler := currentHangupHandler s;
     currentDtmfHandler := currentDtmfHandler s;
     authContext := authContext s; mailbox := mailbox s; reader := reader s;
     eventQueue := eventQueue s; onStasisEnd := onStasisEnd s;
     onChannelDtmfReceived := onChannelDtmfReceived s;
     staleStasisEnd := staleStasisEnd s;
     staleChannelDtmfReceived := staleChannelDtmfReceived s;
     inflight := inflight s; effects := effects s |}.

Definition set_hungup (v : bool) (s : Fsm) : Fsm :=
  {| state := state s; buffer := buffer s; hungup := v;
     currentHangupHandler := currentHangupHandler s;
     currentDtmfHandler := currentDtmfHandler s;
     authContext := authContext s; mailbox := mailbox s; reader := reader s;
     eventQueue := eventQueue s; onStasisEnd := onStasisEnd s;
     onChannelDtmfReceived := onChannelDtmfReceived s;
     staleStasisEnd := staleStasisEnd s;
     staleChannelDtmfReceived := staleChannelDtmfReceived s;
     inflight := inflight s; effects := effects s |}.

(** Both sides of the hangup subscription: the field and the channel. *)
Definition set_hangup_listener (field chan : bool) (s : Fsm) : Fsm :=
  {| state := state s; buffer := buffer s; hungup := hungup s;
     currentHangupHandler := field;
     currentDtmfHandler := currentDtmfHandler s;
     authContext := authContext s; mailbox := mailbox s; reader := reader s;
     eventQueue := eventQueue s; onStasisEnd := chan;
     onChannelDtmfReceived := onChannelDtmfReceived s;
     staleStasisEnd := staleStasisEnd s;
     staleChannelDtmfReceived := staleChannelDtmfReceived s;
     inflight := inflight s; effects := effects s |}.

(** Both sides of the keypad subscription. *)
Definition set_dtmf_listener (field chan : bool) (s : Fsm) : Fsm :=
  {| state := state s; buffer := buffer s; hungup := hungup s;
     currentHangupHandler := currentHangupHandler s;
     currentDtmfHandler := field;
     authContext := authContext s; mailbox := mailbox s; reader := reader s;
     eventQueue := eventQueue s; onStasisEnd := onStasisEnd s;
     onChannelDtmfReceived := chan;
     staleStasisEnd := staleStasisEnd s;
     staleChannelDtmfReceived := staleChannelDtmfReceived s;
     inflight := inflight s; effects := effects s |}.

(** The listeners on the channel the instance no longer refers to. *)
Definition set_stale (hangups keypads : nat) (s : Fsm) : Fsm :=
  {| state := state s; buffer := buffer s; hungup := hungup s;
     currentHangupHandler := currentHangupHandler s;
     currentDtmfHandler := currentDtmfHandler s;
     authContext := authContext s; mailbox := mailbox s; reader := reader s;
     eventQueue := eventQueue s; onStasisEnd := onStasisEnd s;
     onChannelDtmfReceived := onChannelDtmfReceived s;
     staleStasisEnd := hangups;
     staleChannelDtmfReceived := keypads;
     inflight := inflight s; effects := effects s |}.

(** How many listeners the channel calls for a hangup notification and
    for a keypad symbol. *)
Definition hangup_listeners (s : Fsm) : nat :=
  staleStasisEnd s + (if onStasisEnd s then 1 else 0).

Definition dtmf_listeners (s : Fsm) : nat :=
  staleChannelDtmfReceived s + (if onChannelDtmfReceived s then 1 else 0).

Definition set_authContext (v : bool) (s : Fsm) : Fsm :=
  {| state := state s; buffer := buffer s; hungup := hungup s;
     currentHangupHandler := currentHangupHandler s;
     currentDtmfHandler := currentDtmfHandler s;
     authContext := v; mailbox := mailbox s; reader := reader s;
     eventQueue := eventQueue s; onStasisEnd := onStasisEnd s;
     onChannelDtmfReceived := onChannelDtmfReceived s;
     staleStasisEnd := staleStasisEnd s;
     staleChannelDtmfReceived := staleChannelDtmfReceived s;
     inflight := inflight s; effects := effects s |}.

Definition set_mailbox (v : option string) (s : Fsm) : Fsm :=
  {| state := state s; buffer := buffer s; hungup := hungup s;
     currentHangupHandler := currentHangupHandler s;
     currentDtmfHandler := currentDtmfHandler s;
     authContext := authContext s; mailbox := v; reader := reader s;
     eventQueue := eventQueue s; onStasisEnd := onStasisEnd s;
     onChannelDtmfReceived := onChannelDtmfReceived s;
     staleStasisEnd := staleStasisEnd s;
     staleChannelDtmfReceived := staleChannelDtmfReceived s;
     inflight := inflight s; effects := effects s |}.

Definition set_reader (v : option nat) (s : Fsm) : Fsm :=
  {| state := state s; buffer := buffer s; hungup := hungup s;
     currentHangupHandler := currentHangupHandler s;
     currentDtmfHandler := currentDtmfHandler s;
     authContext := authContext s; mailbox := mailbox s; reader := v;
     eventQueue := eventQueue s; onStasisEnd := onStasisEnd s;
     onChannelDtmfReceived := onChannelDtmfReceived s;
     staleStasisEnd := staleStasisEnd s;
     staleChannelDtmfReceived := staleChannelDtmfReceived s;
     inflight := inflight s; effects := effects s |}.

Definition set_eventQueue (v : list (string * string)) (s : Fsm) : Fsm :=
  {| state := state s; buffer := buffer s; hungup := hungup s;
     currentHangupHandler := currentHangupHandler s;
     currentDtmfHandler := currentDtmfHandler s;
     authContext := authContext s; mailbox := mailbox s; reader := reader s;
     eventQueue := v; onStasisEnd := onStasisEnd s;
     onChannelDtmfReceived := onChannelDtmfReceived s;
     staleStasisEnd := staleStasisEnd s;
     staleChannelDtmfReceived := staleChannelDtmfReceived s;
     inflight := inflight s; effects := effects s |}.

Definition set_inflight (v : list Op) (s : Fsm) : Fsm :=
  {| state := state s; buffer := buffer s; hungup := hungup s;
     currentHangupHandler := currentHangupHandler s;
     currentDtmfHandler := currentDtmfHandler s;
     authContext := authContext s; mailbox := mailbox s; reader := reader s;
     eventQueue := eventQueue s; onStasisEnd := onStasisEnd s;
     onChannelDtmfReceived := onChannelDtmfReceived s;
     staleStasisEnd := staleStasisEnd s;
     staleChannelDtmfReceived := staleChannelDtmfReceived s;
     inflight := v; effects := effects s |}.

Definition set_effects (v : list Effect) (s : Fsm) : Fsm :=
  {| state := state s; buffer := buffer s; hungup := hungup s;
     currentHangupHandler := currentHangupHandler s;
     currentDtmfHandler := currentDtmfHandler s;
     authContext := authContext s; mailbox := mailbox s; reader := reader s;
     eventQueue := eventQueue s; onStasisEnd := onStasisEnd s;
     onChannelDtmfReceived := onChannelDtmfReceived s;
     staleStasisEnd := staleStasisEnd s;
     staleChannelDtmfReceived := staleChannelDtmfReceived s;
     inflight := inflight s; effects := v |}.

(** Record a call on a collaborator. *)
Definition emit (e : Effect) (s : Fsm) : Fsm :=
  set_effects (effects s ++ [e]) s.

(** A request goes in flight. *)
Definition start (op : Op) (s : Fsm) : Fsm :=
  set_inflight (inflight s ++ [op]) s.

(** Synchronous code either returns or throws; the instance is as the code
    left it in both cases. *)
Inductive Outcome : Type :=
| Normal (s : Fsm)
| Throws (s : Fsm).

Definition bind (m : Outcome) (k : Fsm -> Outcome) : Outcome :=
  match m with
  | Normal s => k s
  | Throws s => Throws s
  end.

Notation "'call' x <- m 'in' k" := (bind m (fun x => k))
  (at level 10, x name, m at level 100, k at level 200).

(** The instance once control is back in the event loop: an exception that
    was not caught is only observed. *)
Definition uncaught (m : Outcome) : Fsm :=
  match m with
  | Normal s => s
  | Throws s => emit Uncaught s
  end.

(** The instance as synchronous code left it, returned or thrown. *)
Definition after (m : Outcome) : Fsm :=
  match m with
  | Normal s => s
  | Throws s => s
  end.

(** [_.each(items, f)] over code that may throw. *)
Fixpoint each {A : Type} (f : A -> Fsm -> Outcome) (items : list A) (s : Fsm)
  : Outcome :=
  match items with
  | [] => Normal s
  | x :: rest => call s' <- f x s in each f rest s'
  end.

Definition created (e : Effect) : bool :=
  match e with MailboxCreateReader => true | _ => false end.

Definition hangup_requested (e : Effect) : bool :=
  match e with ChannelHangup => true | _ => false end.

(** How many readers [dependencies.mailbox.createReader] has returned. *)
Definition readers_created (s : Fsm) : nat :=
  length (List.filter created (effects s)).

(** How often [channel.hangup] has been requested. *)
Definition hangups_requested (s : Fsm) : nat :=
  length (List.filter hangup_requested (effects s)).

(* ===================================================================== *)
(** ** Names a state table answers to *)
(* ===================================================================== *)

(** machina looks the input type up in [states[current]], a plain object:
    besides the action handlers it finds the hooks [_onEnter] and
    [_onExit] of the state and what every object inherits from
    [Object.prototype]. *)
Definition hook (name : string) : bool :=
  String.eqb name "_onEnter" || String.eqb name "_onExit".

Definition inherited (name : string) : bool :=
  existsb (String.eqb name)
    ["constructor"; "toString"; "toLocaleString"; "valueOf";
     "hasOwnProperty"; "isPrototypeOf"; "propertyIsEnumerable";
     "__defineGetter__"; "__defineSetter__"; "__lookupGetter__";
     "__lookupSetter__"; "__proto__"].

(** [handle] calls what it finds, unless it is a string, with the input as
    only argument. Of the inherited members this raises a [TypeError] for
    the two that expect a function as second argument and for
    [__proto__], which is an object and cannot be called. The others
    return; none of them touches the instance. *)
Definition raises (name : string) : bool :=
  existsb (String.eqb name)
    ["__defineGetter__"; "__defineSetter__"; "__proto__"].

Definition reserved (name : string) : bool := hook name || inherited name.

(** The action names a grammar entry can resolve. *)
Definition action_names (st : StateInputs) : list string :=
  match regex st with
  | Some rule => [rule_action rule]
  | None => []
  end ++ map snd (map_to_list (keys st)).

(** The grammar names action handlers only: no hook and no inherited
    member. *)
Definition actions_only (inputs : gmap string StateInputs) : bool :=
  forallb (fun entry => forallb (fun name => negb (reserved name))
                          (action_names (snd entry)))
    (map_to_list inputs).

(* ===================================================================== *)
(** ** [fsm(domain, mailboxNumber, channel, dependencies)] *)
(* ===================================================================== *)

Section Session.

Variable domain : string.
Variable mailboxNumber : string.
(** [dependencies.config.getAppConfig().inputs.mailboxReader], keyed by
    state name. *)
Variable inputs : gmap string StateInputs.

(** *** Members of the instance *)

Definition removeHangupHandler (s : Fsm) : Fsm :=
  if currentHangupHandler s then set_hangup_listener false false s else s.

Definition removeDtmfHandler (s : Fsm) : Fsm :=
  if currentDtmfHandler s then set_dtmf_listener false false s else s.

(** [hangup]: the request goes out; its failure is swallowed when it
    settles. *)
Definition hangup (s : Fsm) : Fsm :=
  start OpHangup (emit ChannelHangup s).

(** *** Entry and exit hooks of the states *)

(** [this.currentHangupHandler = this.hangupHandler.bind(this);
    channel.once('StasisEnd', this.currentHangupHandler)]: the field
    refers to the new listener; one registered before stays on the
    channel. Likewise for the keypad listener. *)
Definition register_listeners (s : Fsm) : Fsm :=
  set_stale (hangup_listeners s) (dtmf_listeners s)
    (set_dtmf_listener true true (set_hangup_listener true true s)).

Definition init_onEnter (s : Fsm) : Fsm :=
  let s := set_buffer [] s in
  let s := register_listeners s in
  start OpAnswer (emit ChannelAnswer s).

Definition auth_onEnter (s : Fsm) : Fsm :=
  let s := emit AuthCreate s in
  let s := set_authContext true s in
  start OpInit (emit (AuthInit domain mailboxNumber) s).

Definition done_onEnter (s : Fsm) : Fsm :=
  removeDtmfHandler (removeHangupHandler s).

(** [states[st]._onEnter]; the hooks of the other states only trace. *)
Definition onEnter (st : State) (s : Fsm) : Fsm :=
  match st with
  | init => init_onEnter s
  | auth => auth_onEnter s
  | done => done_onEnter s
  | waitingForAuth | ready | changingFolder => s
  end.

(** The states whose table has an [_onExit]. *)
Definition has_onExit (st : State) : bool :=
  match st with
  | waitingForAuth | ready | changingFolder => true
  | init | auth | done => false
  end.

(** [states[st]._onExit], where the state has one. *)
Definition onExit (st : State) (s : Fsm) : Fsm :=
  if has_onExit st then set_buffer [] s else s.

(** *** machina: dispatch, deferral and replay *)

(** What [handle] runs when [states[st][inputType]] is not an action
    handler: a hook of the state, called like a handler, or an inherited
    member. [None] when the name is neither. *)
Definition member (st : State) (inputType : string) (s : Fsm)
  : option Outcome :=
  if String.eqb inputType "_onEnter" then Some (Normal (onEnter st s))
  else if String.eqb inputType "_onExit"
       then if has_onExit st then Some (Normal (onExit st s)) else None
  else if inherited inputType
       then Some (if raises inputType then Throws s else Normal s)
  else None.

(** [this.deferUntilTransition('waitingForAuth')] inside a handler: the
    arguments of the current [handle] call are pushed on the queue. *)
Definition deferUntilTransition (args : string * string) (s : Fsm) : Fsm :=
  set_eventQueue (eventQueue s ++ [args]) s.

(** [waitingForAuth.authenticate]: [this.auth.authenticate(password)] with
    its continuations attached. *)
Definition waitingForAuth_authenticate (password : string) (s : Fsm)
  : Outcome :=
  if authContext s
  then Normal (start (OpAuthenticate password)
                 (emit (AuthAuthenticate password) s))
  else Throws s.

(** The action handlers of 'waitingForAuth'. *)
Definition waitingForAuth_table (inputType arg : string) (s : Fsm)
  : Outcome :=
  if String.eqb inputType "authenticate"
  then waitingForAuth_authenticate arg s
  else Normal s.

(** [handle] for an instance whose state is 'waitingForAuth'. *)
Definition waitingForAuth_handle (inputType arg : string) (s : Fsm)
  : Outcome :=
  match member waitingForAuth inputType s with
  | Some outcome => outcome
  | None => waitingForAuth_table inputType arg s
  end.

(** [processQueue('transition')]: the queued items whose [untilState] is
    the state just entered leave the queue and are handled in order. Every
    item waits for 'waitingForAuth', so in any other state nothing is
    taken, and the replay dispatches in the table of 'waitingForAuth',
    which no handler of that table leaves. *)
Definition processQueue (s : Fsm) : Outcome :=
  match state s with
  | waitingForAuth =>
      each (fun item => waitingForAuth_handle (fst item) (snd item))
        (eventQueue s) (set_eventQueue [] s)
  | _ => Normal s
  end.

(** [this.transition(newState)]: nothing when the state is the current
    one; otherwise the exit hook, the state change, the entry hook, then
    the replay. (No hook here calls [transition] or [handle], so machina's
    [inExitHandler] and [targetReplayState] guards never fire.) *)
Definition transition (newState : State) (s : Fsm) : Outcome :=
  if decide (newState = state s) then Normal s
  else
    let s := onExit (state s) s in
    let s := set_state newState s in
    let s := onEnter newState s in
    processQueue s.

(** *** Action handlers of the states *)

(** A method call on [this.reader]; a [TypeError] while it is not set. *)
Definition reader_call (method : string) (args : list string) (s : Fsm)
  : Outcome :=
  match reader s with
  | Some r => Normal (emit (ReaderCall r method args) s)
  | None => Throws s
  end.

Definition auth_table (inputType arg : string) (s : Fsm) : Outcome :=
  if String.eqb inputType "authenticate"
  then Normal (deferUntilTransition (inputType, arg) s)
  else Normal s.

Definition ready_table (inputType arg : string) (s : Fsm) : Outcome :=
  if String.eqb inputType "first" then reader_call "first" [] s
  else if String.eqb inputType "replay" then reader_call "replay" [] s
  else if String.eqb inputType "next" then reader_call "next" [] s
  else if String.eqb inputType "prev" then reader_call "prev" [] s
  else if String.eqb inputType "delete" then reader_call "delete" [] s
  else if String.eqb inputType "previousMenu"
       then reader_call "previousMenu" [] s
  else if String.eqb inputType "repeatMenu"
       then reader_call "repeatMenu" [] s
  else if String.eqb inputType "changeFolder"
       then call s' <- reader_call "changeFolder" [] s in
            transition changingFolder s'
  else Normal s.

Definition changingFolder_table (inputType arg : string) (s : Fsm)
  : Outcome :=
  if String.eqb inputType "submit"
  then call s' <- reader_call "submitFolder" [arg] s in
       Normal (start (OpSubmitFolder arg) s')
  else if String.eqb inputType "previousMenu"
       then call s' <- reader_call "previousMenu" [] s in
            transition ready s'
  else if String.eqb inputType "repeatMenu"
       then reader_call "repeatMenu" [] s
  else Normal s.

(** The catch-all ['*'] of 'done'. *)
Definition done_table (inputType arg : string) (s : Fsm) : Outcome :=
  Normal (emit (LoggerError "called handle on spent fsm") s).

(** The action handler of that name in the table of the current state,
    else the state's catch-all, else nothing. *)
Definition actions (inputType arg : string) (s : Fsm) : Outcome :=
  match state s with
  | init => Normal s
  | auth => auth_table inputType arg s
  | waitingForAuth => waitingForAuth_table inputType arg s
  | ready => ready_table inputType arg s
  | changingFolder => changingFolder_table inputType arg s
  | done => done_table inputType arg s
  end.

(** [this.handle(inputType, arg)]: whatever [states[current][inputType]]
    is gets called with the argument. A hook or an inherited member comes
    before the catch-all of 'done', which serves the names the table does
    not know. *)
Definition handle (inputType arg : string) (s : Fsm) : Outcome :=
  match member (state s) inputType s with
  | Some outcome => outcome
  | None => actions inputType arg s
  end.

(** *** Channel listeners *)

Definition hangupHandler (s : Fsm) : Outcome :=
  transition done (set_hungup true s).

Definition dtmfHandler (digit : string) (s : Fsm) : Outcome :=
  match inputs !! state_name (state s) with
  | None => Normal s
  | Some st =>
      let s := set_buffer (buffer s ++ [digit]) s in
      let input := String.concat "" (buffer s) in
      match resolve st input with
      | Some action =>
          if truthy action
          then handle action input (set_buffer [] s)
          else Normal s
      | None => Normal s
      end
  end.

(** [channel.emit(type, event)]: the listeners registered when the event
    is emitted are called in turn, also those a call removes meanwhile; an
    exception ends the round. *)
Fixpoint deliver (n : nat) (listener : Fsm -> Outcome) (s : Fsm) : Outcome :=
  match n with
  | O => Normal s
  | S n' => call s' <- listener s in deliver n' listener s'
  end.

(** Every listener registered with [once] leaves the channel as it is
    called. No handler looks at what is registered, so they are taken off
    as the round begins. *)
Definition unregister_once (s : Fsm) : Fsm :=
  set_stale 0 (staleChannelDtmfReceived s)
    (set_hangup_listener (currentHangupHandler s) false s).

(** *** Promise continuations *)

(** [p.then(f).catch(g)] once [p] has settled: [g] also receives what [f]
    throws. *)
Definition then_catch (f : string -> Fsm -> Outcome)
    (g : string -> Fsm -> Outcome) (result : Result) (s : Fsm) : Fsm :=
  match result with
  | Fulfilled v =>
      match f v s with
      | Normal s' => s'
      | Throws s' => uncaught (g "TypeError" s')
      end
  | Rejected name => uncaught (g name s)
  end.

Definition createReader (s : Fsm) : Fsm :=
  set_reader (Some (readers_created s)) (emit MailboxCreateReader s).

(** The continuations attached to each request, run when it settles. *)
Definition settle (op : Op) (result : Result) (s : Fsm) : Fsm :=
  match op with
  | OpAnswer =>
      then_catch
        (fun _ s => transition auth s)
        (fun _ s =>
           transition done (emit (LoggerError "error answering channel") s))
        result s
  | OpInit =>
      then_catch
        (fun mbox s => transition waitingForAuth (set_mailbox (Some mbox) s))
        (fun _ s =>
           Normal (hangup
                     (emit (LoggerError "error initializing authenticator") s)))
        result s
  | OpAuthenticate _ =>
      then_catch
        (fun _ s => transition ready (createReader s))
        (fun name s =>
           let s := emit (LoggerError "error authenticating") s in
           if String.eqb name "InvalidPassword"
           then Normal s
           else Normal (hangup s))
        result s
  | OpSubmitFolder _ =>
      then_catch
        (fun _ s => transition ready s)
        (fun _ s =>
           Normal (hangup (emit (LoggerError "error submitting folder") s)))
        result s
  | OpHangup => s
  end.

(** *** The session as a transition system *)

(** The first occurrence of [op] leaves the requests in flight. *)
Fixpoint settled (op : Op) (ops : list Op) : list Op :=
  match ops with
  | [] => []
  | o :: rest => if decide (o = op) then rest else o :: settled op rest
  end.

(** One event. A keypad symbol is handled by every keypad listener on the
    channel, a hangup notification by every hangup listener, each of which
    leaves the channel as it fires; a settlement reaches the instance when
    that request is in flight. Anything else does not concern the
    session. *)
Definition step (s : Fsm) (ev : Event) : Fsm :=
  match ev with
  | ChannelDtmfReceived digit =>
      uncaught (deliver (dtmf_listeners s) (dtmfHandler digit) s)
  | StasisEnd =>
      uncaught (deliver (hangup_listeners s) hangupHandler
                  (unregister_once s))
  | Settled op result =>
      if decide (op ∈ inflight s)
      then settle op result (set_inflight (settled op (inflight s)) s)
      else s
  end.

Definition run (s : Fsm) (evs : list Event) : Fsm := fold_left step evs s.

(** [new machina.Fsm({ initialState: 'init', ... })]: a fresh instance
    makes its transition to 'init' at once, which runs the entry hook;
    nothing is queued yet, so nothing is replayed. *)
Definition blank : Fsm :=
  {| state := init; buffer := []; hungup := false;
     currentHangupHandler := false; currentDtmfHandler := false;
     authContext := false; mailbox := None; reader := None;
     eventQueue := []; onStasisEnd := false;
     onChannelDtmfReceived := false;
     staleStasisEnd := 0; staleChannelDtmfReceived := 0;
     inflight := []; effects := [] |}.

Definition create : Fsm := init_onEnter blank.

(** What happens to the instance while one event is delivered, call by
    call: a listener runs, the [once] listeners leave the channel, an
    exception of a listener reaches the event loop, the continuations of a
    request run. *)
Inductive move : Event -> Fsm -> Fsm -> Prop :=
| move_dtmf digit x y :
    after (dtmfHandler digit x) = y -> move (ChannelDtmfReceived digit) x y
| move_dtmf_uncaught digit x y :
    emit Uncaught x = y -> move (ChannelDtmfReceived digit) x y
| move_once x y :
    unregister_once x = y -> move StasisEnd x y
| move_hangup x y :
    after (hangupHandler x) = y -> move StasisEnd x y
| move_hangup_uncaught x y :
    emit Uncaught x = y -> move StasisEnd x y
| move_settle op result x y :
    op ∈ inflight x ->
    settle op result (set_inflight (settled op (inflight x)) x) = y ->
    move (Settled op result) x y.

End Session.

(* ===================================================================== *)
(** ** The resolver as the specification words it *)
(* ===================================================================== *)

(** The pattern rule applies when the entire buffer content is a word of
    the pattern; otherwise the literal map is consulted. To be compared
    with [resolve]. *)
Definition resolve_entire (st : StateInputs) (input : string)
  : option string :=
  match regex st with
  | Some rule =>
      if Regex.whole_match (rule_match rule) input
      then Some (rule_action rule)
      else keys st !! input
  | None => keys st !! input
  end.

(* ===================================================================== *)
(** ** Sample configurations and observations *)
(* ===================================================================== *)

(** ['\\d{4}'] and ['\\d'], as the configurations write them: no anchor. *)
Definition four_digits : Regex.pattern :=
  Regex.Pattern false (Regex.Rep 4 Regex.Digit) false.

Definition one_digit : Regex.pattern :=
  Regex.Pattern false Regex.Digit false.

Definition waitingForAuth_inputs : StateInputs :=
  {| regex := Some {| rule_match := four_digits;
                      rule_action := "authenticate" |};
     keys := ∅ |}.

Definition changingFolder_inputs : StateInputs :=
  {| regex := Some {| rule_match := one_digit; rule_action := "submit" |};
     keys := list_to_map [("#", "previousMenu"); ("*", "repeatMenu")] |}.

Definition ready_inputs : StateInputs :=
  {| regex := None;
     keys := list_to_map
               [("1", "first"); ("2", "changeFolder"); ("4", "prev");
                ("5", "replay"); ("6", "next"); ("7", "delete");
                ("#", "previousMenu"); ("*", "repeatMenu")] |}.

(** The grammar the unit tests configure. *)
Definition mailboxReader : gmap string StateInputs :=
  list_to_map
    [("waitingForAuth", waitingForAuth_inputs);
     ("changingFolder", changingFolder_inputs);
     ("ready", ready_inputs)].

(** The same grammar with the password pattern also offered while the
    authenticator initialises, which is what the [authenticate] handler of
    'auth' is there for. *)
Definition mailboxReader_early : gmap string StateInputs :=
  <["auth" := waitingForAuth_inputs]> mailboxReader.

Definition dtmf (digits : list string) : list Event :=
  map ChannelDtmfReceived digits.

Definition answered : Event := Settled OpAnswer (Fulfilled "").
Definition initialised : Event := Settled OpInit (Fulfilled "1234").
Definition verified (password : string) : Event :=
  Settled (OpAuthenticate password) (Fulfilled "").

(** Successful verifications among the events. *)
Definition verification_fulfilled (ev : Event) : bool :=
  match ev with
  | Settled (OpAuthenticate _) (Fulfilled _) => true
  | _ => false
  end.

Definition authenticate_started (e : Effect) : bool :=
  match e with AuthAuthenticate _ => true | _ => false end.

(** How often [auth.authenticate] has been called. *)
Definition verifications_started (s : Fsm) : nat :=
  length (List.filter authenticate_started (effects s)).

Definition verification (op : Op) : bool :=
  match op with OpAuthenticate _ => true | _ => false end.

(** How many verifications are in flight. *)
Definition verifications_inflight (s : Fsm) : nat :=
  length (List.filter verification (inflight s)).

(** A request that only [waitingForAuth] and the states after it issue. *)
Definition late (op : Op) : bool :=
  match op with
  | OpAuthenticate _ | OpSubmitFolder _ => true
  | _ => false
  end.

(** The passwords a replay of the queue submits, in order. *)
Definition replayed (queue : list (string * string)) : list string :=
  map snd
    (List.filter (fun item => String.eqb (fst item) "authenticate") queue).

(** No request of the later states is in flight. *)
Definition no_late (ops : list Op) : Prop :=
  forall op, op ∈ ops -> late op = false.

(** What holds of every instance a session can reach when the grammar
    names action handlers only: the answer request is alone in flight and
    belongs to 'init' (or to 'done' after an early hangup); nothing of the
    later states is in flight in 'auth', nor in 'done' while symbols are
    still buffered; 'done' has no listener left; a listener on the channel
    is one the instance remembers. *)
Definition Inv (s : Fsm) : Prop :=
  (OpAnswer ∈ inflight s ->
     inflight s = [OpAnswer] /\ (state s = init \/ state s = done)) /\
  (state s = init -> OpAnswer ∈ inflight s) /\
  (state s = auth -> no_late (inflight s)) /\
  (state s = done -> buffer s <> [] -> no_late (inflight s)) /\
  (state s = done ->
     onChannelDtmfReceived s = false /\ onStasisEnd s = false) /\
  (onStasisEnd s = true -> currentHangupHandler s = true) /\
  (onChannelDtmfReceived s = true -> currentDtmfHandler s = true) /\
  staleStasisEnd s = 0 /\ staleChannelDtmfReceived s = 0.

(** A caller who reached the password prompt and has typed [#], [1], [2],
    [3] so far. *)
Definition typed_hash_123 : Fsm :=
  run "domain.com" "1234" mailboxReader create
    ([answered; initialised] ++ dtmf ["#"; "1"; "2"; "3"]).

(** What the handlers rely on is there when they run: the auth context
    from 'auth' on and while its initialisation is in flight, the reader
    in 'ready' and 'changingFolder' and while a folder is being
    submitted; and only [authenticate] is ever deferred. *)
Definition Equipped (s : Fsm) : Prop :=
  (OpInit ∈ inflight s -> authContext s = true) /\
  (state s = auth -> authContext s = true) /\
  (state s = waitingForAuth -> authContext s = true) /\
  (state s = ready -> reader s <> None) /\
  (state s = changingFolder -> reader s <> None) /\
  (forall option, OpSubmitFolder option ∈ inflight s -> reader s <> None) /\
  Forall (fun item => fst item = "authenticate") (eventQueue s).

(** Readers are accounted for: each one created answers a verification
    that was started and is no longer in flight, and while none was
    created the handle is null. *)
Definition Counted (s : Fsm) : Prop :=
  readers_created s + verifications_inflight s <= verifications_started s /\
  (readers_created s = 0 -> reader s = None).

(** Nothing can reach the instance any more: it is in 'done', no request
    is in flight and no listener is registered. *)
Definition Spent (s : Fsm) : Prop :=
  state s = done /\ inflight s = [] /\
  hangup_listeners s = 0 /\ dtmf_listeners s = 0.

(** The instance between its creation and the settlement of the answer
    request, whatever was dialled meanwhile, when the grammar names
    action handlers only. *)
Definition Ringing (s : Fsm) : Prop :=
  state s = init /\ inflight s = [OpAnswer] /\ effects s = [ChannelAnswer] /\
  hungup s = false /\ reader s = None /\
  currentHangupHandler s = true /\ onStasisEnd s = true /\
  currentDtmfHandler s = true /\ onChannelDtmfReceived s = true /\
  staleStasisEnd s = 0 /\ staleChannelDtmfReceived s = 0.

(** The instance while it is in 'init', under any grammar: an answer
    request is in flight, and neither was [channel.hangup] requested nor
    the hangup notified. *)
Definition Answering (s : Fsm) : Prop :=
  state s = init /\ OpAnswer ∈ inflight s /\
  hangups_requested s = 0 /\ hungup s = false.

(** How many of the events are successful verifications. *)
Definition verifications_fulfilled (evs : list Event) : nat :=
  length (List.filter verification_fulfilled evs).

(** A caller at the password prompt whose four digits [2222] are being
    verified. *)
Definition password_sent : Fsm :=
  run "domain.com" "1234" mailboxReader create
    ([answered; initialised] ++ dtmf ["2"; "2"; "2"; "2"]).

(** An authenticated caller who has pressed [2] to change folder. *)
Definition choosing_folder : Fsm :=
  run "domain.com" "1234" mailboxReader create
    ([answered; initialised] ++ dtmf ["1"; "1"; "1"; "1"] ++
     [verified "1111"] ++ dtmf ["2"]).

(** A caller who typed the password while the authenticator was still
    initialising. *)
Definition early_caller : Fsm :=
  run "domain.com" "1234" mailboxReader_early create
    ([answered] ++ dtmf ["1"; "1"; "1"; "1"]).

(** A caller who hangs up while the password is being verified. *)
Definition hung_up_during_verification : Fsm :=
  run "domain.com" "1234" mailboxReader create
    ([answered; initialised] ++ dtmf ["1"; "1"; "1"; "1"] ++ [StasisEnd]).

(* ===================================================================== *)
(** ** Further observations on a session *)
(* ===================================================================== *)

Definition reader_operation (e : Effect) : bool :=
  match e with ReaderCall _ _ _ => true | _ => false end.

(** How many methods of the reader have been called. *)
Definition reader_operations (s : Fsm) : nat :=
  length (List.filter reader_operation (effects s)).

(** The failures whose continuation asks the channel to hang up. *)
Definition fatal (ev : Event) : bool :=
  match ev with
  | Settled OpInit (Rejected _) => true
  | Settled (OpAuthenticate _) (Rejected name) =>
      negb (String.eqb name "InvalidPassword")
  | Settled (OpSubmitFolder _) (Rejected _) => true
  | _ => false
  end.

Definition failures (evs : list Event) : nat :=
  length (List.filter fatal evs).

Definition initialisation_fulfilled (ev : Event) : bool :=
  match ev with
  | Settled OpInit (Fulfilled _) => true
  | _ => false
  end.

Definition initialisation (op : Op) : bool :=
  match op with OpInit => true | _ => false end.

(** How many initialisations of the authenticator are in flight. *)
Definition initialisations_inflight (s : Fsm) : nat :=
  length (List.filter initialisation (inflight s)).

(** The state changes the state table and the continuations can make:
    the forward path, the way back from the folder menu, 'done' from
    everywhere, and the continuations that run after 'done'. *)
Definition edge (a b : State) : bool :=
  match a, b with
  | init, auth | init, done => true
  | auth, waitingForAuth | auth, done => true
  | waitingForAuth, ready | waitingForAuth, done => true
  | ready, changingFolder | ready, done => true
  | changingFolder, ready | changingFolder, done => true
  | done, auth | done, waitingForAuth | done, ready => true
  | _, _ => false
  end.

(** The symbols among the events, in order of arrival. *)
Fixpoint dialled (evs : list Event) : list string :=
  match evs with
  | [] => []
  | ChannelDtmfReceived digit :: rest => digit :: dialled rest
  | _ :: rest => dialled rest
  end.

Definition bootstrap (e : Effect) : bool :=
  match e with
  | ChannelAnswer | AuthCreate | AuthInit _ _ => true
  | _ => false
  end.

(** The calls that bring a session up: on the channel to answer, on the
    auth helper to create and initialise the authenticator. *)
Definition bootstrap_calls (s : Fsm) : list Effect :=
  List.filter bootstrap (effects s).

(** At most one initialisation is in flight, only in 'auth' or in 'done',
    and never together with a request of the later states. *)
Definition Single (s : Fsm) : Prop :=
  initialisations_inflight s <= 1 /\
  (0 < initialisations_inflight s ->
   (state s = auth \/ state s = done) /\ no_late (inflight s)).

(** Before the authenticator is initialised: the session is in one of the
    first states or in 'done', nothing of the later states is in flight,
    no verification was started and there is no reader. *)
Definition Unauthenticated (s : Fsm) : Prop :=
  (state s = init \/ state s = auth \/ state s = done) /\
  no_late (inflight s) /\
  verifications_started s = 0 /\
  readers_created s = 0 /\
  reader_operations s = 0 /\
  reader s = None.

(** No reader, no reader operation. *)
Definition Silent (s : Fsm) : Prop :=
  readers_created s = 0 -> reader s = None /\ reader_operations s = 0.

(** The fields that remember the listeners are cleared in 'done'. *)
Definition Forgotten (s : Fsm) : Prop :=
  state s = done ->
  currentHangupHandler s = false /\ currentDtmfHandler s = false.

(** The session was brought up in order: the answer was requested once,
    and after it the authenticator was created and initialised at most
    once, with the domain and mailbox number of the session. *)
Definition Booted (domain mailboxNumber : string) (s : Fsm) : Prop :=
  (OpAnswer ∈ inflight s -> bootstrap_calls s = [ChannelAnswer]) /\
  (bootstrap_calls s = [ChannelAnswer] \/
   bootstrap_calls s
   = [ChannelAnswer; AuthCreate; AuthInit domain mailboxNumber]).

(** Keypad symbols are one character each. *)
Definition symbols (digits : list string) : Prop :=
  Forall (fun digit => String.length digit = 1) digits.

(** A grammar entry without pattern rule whose keys are single symbols,
    like the one of 'ready'. *)
Definition literal_only (st : StateInputs) : Prop :=
  regex st = None /\
  forall key action, keys st !! key = Some action -> String.length key = 1.

(** An authenticated caller who pressed a key the menu does not know. *)
Definition pressed_9 : Fsm :=
  run "domain.com" "1234" mailboxReader create
    ([answered; initialised] ++ dtmf ["1"; "1"; "1"; "1"] ++
     [verified "1111"] ++ dtmf ["9"]).

(** An authenticated caller, idle in the main menu. *)
Definition browsing : Fsm :=
  run "domain.com" "1234" mailboxReader create
    ([answered; initialised] ++ dtmf ["1"; "1"; "1"; "1"] ++
     [verified "1111"]).

(** The hangup notification has been delivered at most once: once
    [hungup] is set the listener is off the channel. *)
Definition Notified (s : Fsm) : Prop :=
  hungup s = true -> onStasisEnd s = false.

(** The auth helper of the unit tests: [init] resolves with the mailbox
    for the domain [domain.com] and rejects with
    [new Error('ContextNotFound')] otherwise; [authenticate] resolves for
    the password [1111] and rejects with [new Error('InvalidPassword')]
    otherwise. The name of an [Error] made this way is [Error]; the text
    given to it is its message. *)
Definition mock_init (domain : string) : Result :=
  if String.eqb domain "domain.com"
  then Fulfilled "1234"
  else Rejected "Error".

Definition mock_authenticate (password : string) : Result :=
  if String.eqb password "1111"
  then Fulfilled ""
  else Rejected "Error".

Definition answer_requested (e : Effect) : bool :=
  match e with ChannelAnswer => true | _ => false end.

(** How often [channel.answer] has been requested, which is how often the
    entry hook of 'init' has run. *)
Definition answers_requested (s : Fsm) : nat :=
  length (List.filter answer_requested (effects s)).

(** Every listener on the channel was registered by a run of the entry
    hook of 'init'. *)
Definition Registered (s : Fsm) : Prop :=
  hangup_listeners s <= answers_requested s /\
  dtmf_listeners s <= answers_requested s.

(* ===================================================================== *)
(** ** The matcher computes the declarative meaning *)
(* ===================================================================== *)

Section RegexFacts.
Import Regex.

Lemma matches_seq_inv (r1 r2 : re) (w : list ascii) :
  matches (Seq r1 r2) w ->
  exists w1 w2, w = w1 ++ w2 /\ matches r1 w1 /\ matches r2 w2.
Proof. inversion 1; subst; eauto. Qed.

Lemma matches_alt_inv (r1 r2 : re) (w : list ascii) :
  matches (Alt r1 r2) w -> matches r1 w \/ matches r2 w.
Proof. inversion 1; subst; eauto. Qed.

Lemma nullable_matches (r : re) : nullable r = true <-> matches r [].
Proof.
  induction r as [| | | | |r1 IH1 r2 IH2|r1 IH1 r2 IH2|r IH]; simpl.
  - split; [discriminate | inversion 1].
  - split; [constructor | reflexivity].
  - split; [discriminate | inversion 1].
  - split; [discriminate | inversion 1].
  - split; [discriminate | inversion 1].
  - rewrite andb_true_iff, IH1, IH2. split.
    + intros [H1 H2]. change (@nil ascii) with (@nil ascii ++ []).
      by constructor.
    + intros (w1 & w2 & Heq & H1 & H2)%matches_seq_inv. symmetry in Heq.
      apply app_eq_nil in Heq as [-> ->]. by split.
  - rewrite orb_true_iff, IH1, IH2. split.
    + intros [H|H]; [by apply MAltL | by apply MAltR].
    + intros [H|H]%matches_alt_inv; [by left | by right].
  - split; [constructor | reflexivity].
Qed.

Lemma matches_star_cons (r : re) (c : ascii) (w : list ascii) :
  matches (Star r) (c :: w) ->
  exists w1 w2, w = w1 ++ w2 /\ matches r (c :: w1) /\ matches (Star r) w2.
Proof.
  intros H. remember (Star r) as sr eqn:Hsr. remember (c :: w) as cw eqn:Hcw.
  revert w Hcw.
  induction H as [| | | | | | | |r' w1 w2 H1 _ H2 IH2]; intros v Hcw;
    try discriminate.
  injection Hsr as ->.
  destruct w1 as [|c' w1']; simpl in Hcw.
  - by apply IH2.
  - injection Hcw as -> <-. by exists w1', w2.
Qed.

Lemma deriv_matches (c : ascii) (r : re) (w : list ascii) :
  matches (deriv c r) w <-> matches r (c :: w).
Proof.
  revert w.
  induction r as [| | d | | |r1 IH1 r2 IH2|r1 IH1 r2 IH2|r IH]; intros w; simpl.
  - split; inversion 1.
  - split; inversion 1.
  - destruct (Ascii.eqb_spec c d) as [->|Hne].
    + split; inversion 1; subst; constructor.
    + split; inversion 1; subst; congruence.
  - destruct (is_digit c) eqn:Hd.
    + split; inversion 1; subst; by constructor.
    + split; inversion 1; subst; congruence.
  - destruct (is_line_terminator c) eqn:Hd.
    + split; inversion 1; subst; congruence.
    + split; inversion 1; subst; by constructor.
  - assert (Hseq : forall v, matches (Seq (deriv c r1) r2) v ->
                             matches (Seq r1 r2) (c :: v)).
    { intros v (w1 & w2 & -> & H1 & H2)%matches_seq_inv.
      apply IH1 in H1. change (c :: w1 ++ w2) with ((c :: w1) ++ w2).
      by constructor. }
    assert (Hinv : matches (Seq r1 r2) (c :: w) ->
                   matches (Seq (deriv c r1) r2) w \/
                   (matches r1 [] /\ matches r2 (c :: w))).
    { intros (w1 & w2 & Heq & H1 & H2)%matches_seq_inv.
      destruct w1 as [|c' w1']; simpl in Heq.
      - subst. by right.
      - injection Heq as <- ->. left. constructor; [by apply IH1 | done]. }
    destruct (nullable r1) eqn:Hn.
    + split.
      * intros [H|H]%matches_alt_inv; [by apply Hseq |].
        change (c :: w) with ([] ++ c :: w). constructor.
        -- by apply nullable_matches.
        -- by apply IH2.
      * intros H. destruct (Hinv H) as [H'|[_ H']].
        -- by apply MAltL.
        -- apply MAltR. by apply IH2.
    + split; [apply Hseq |].
      intros H. destruct (Hinv H) as [H'|[H' _]]; [done |].
      apply nullable_matches in H'. congruence.
  - split.
    + intros [H|H]%matches_alt_inv;
        [apply MAltL; by apply IH1 | apply MAltR; by apply IH2].
    + inversion 1; subst; [apply MAltL; by apply IH1 | apply MAltR; by apply IH2].
  - split.
    + intros (w1 & w2 & -> & H1 & H2)%matches_seq_inv.
      apply IH in H1. change (c :: w1 ++ w2) with ((c :: w1) ++ w2).
      by constructor.
    + intros H. apply matches_star_cons in H as (w1 & w2 & -> & H1 & H2).
      constructor; [by apply IH | done].
Qed.

Lemma whole_matches (r : re) (w : list ascii) :
  whole r w = true <-> matches r w.
Proof.
  revert r. induction w as [|c w IH]; intros r; simpl.
  - apply nullable_matches.
  - rewrite IH. apply deriv_matches.
Qed.

Lemma prefix_matches (r : re) (w : list ascii) :
  prefix r w = true <->
  exists w1 w2, w = w1 ++ w2 /\ matches r w1.
Proof.
  revert r. induction w as [|c w IH]; intros r; simpl.
  - rewrite orb_false_r, nullable_matches. split.
    + intros H. by exists [], [].
    + intros (w1 & w2 & Heq & H). symmetry in Heq.
      apply app_eq_nil in Heq as [-> _]. done.
  - rewrite orb_true_iff, nullable_matches, IH. split.
    + intros [H|(w1 & w2 & -> & H)].
      * by exists [], (c :: w).
      * exists (c :: w1), w2. split; [done |]. by apply deriv_matches.
    + intros (w1 & w2 & Heq & H). destruct w1 as [|c' w1]; simpl in Heq.
      * by left.
      * injection Heq as <- ->. right. exists w1, w2.
        split; [done |]. by apply deriv_matches.
Qed.

Lemma some_suffix_spec (f : list ascii -> bool) (w : list ascii) :
  some_suffix f w = true <-> exists w1 w2, w = w1 ++ w2 /\ f w2 = true.
Proof.
  induction w as [|c w IH]; simpl.
  - rewrite orb_false_r. split.
    + intros H. by exists [], [].
    + intros (w1 & w2 & Heq & H). symmetry in Heq.
      apply app_eq_nil in Heq as [_ ->]. done.
  - rewrite orb_true_iff, IH. split.
    + intros [H|(w1 & w2 & -> & H)].
      * by exists [], (c :: w).
      * by exists (c :: w1), w2.
    + intros (w1 & w2 & Heq & H). destruct w1 as [|c' w1]; simpl in Heq.
      * subst. by left.
      * injection Heq as <- ->. right. by exists w1, w2.
Qed.

Lemma test_found (p : pattern) (input : string) :
  test p input = true <-> found p (list_ascii_of_string input).
Proof.
  unfold test, found. set (w := list_ascii_of_string input). clearbody w.
  destruct p as [[] r []]; simpl.
  - rewrite whole_matches. split.
    + intros H. exists [], w, []. rewrite app_nil_r. by repeat split.
    + intros (pre & mid & post & -> & H & Hpre & Hpost).
      rewrite (Hpre eq_refl), (Hpost eq_refl), app_nil_r. done.
  - rewrite prefix_matches. split.
    + intros (w1 & w2 & -> & H). exists [], w1, w2. by repeat split.
    + intros (pre & mid & post & -> & H & Hpre & _).
      rewrite (Hpre eq_refl). by exists mid, post.
  - rewrite some_suffix_spec. split.
    + intros (w1 & w2 & -> & H%whole_matches). exists w1, w2, [].
      rewrite app_nil_r. by repeat split.
    + intros (pre & mid & post & -> & H & _ & Hpost).
      rewrite (Hpost eq_refl), app_nil_r. exists pre, mid.
      split; [done |]. by apply whole_matches.
  - rewrite some_suffix_spec. split.
    + intros (w1 & w2 & -> & (v1 & v2 & -> & H)%prefix_matches).
      exists w1, v1, v2. by repeat split.
    + intros (pre & mid & post & -> & H & _ & _). exists pre, (mid ++ post).
      split; [done |]. apply prefix_matches. by exists mid, post.
Qed.

Lemma found_anchored (p : pattern) (w : list ascii) :
  bol p = true -> eol p = true -> (found p w <-> matches (body p) w).
Proof.
  intros Hb He. split.
  - intros (pre & mid & post & -> & H & Hpre & Hpost).
    rewrite (Hpre Hb), (Hpost He), app_nil_r. done.
  - intros H. exists [], w, []. rewrite app_nil_r. by repeat split.
Qed.

End RegexFacts.

(* ===================================================================== *)
(** ** Delivery of an event to the listeners *)
(* ===================================================================== *)

(** A listener that returns without touching the instance can be called
    any number of times. *)
Lemma deliver_fixed (n : nat) (listener : Fsm -> Outcome) (s : Fsm) :
  listener s = Normal s -> deliver n listener s = Normal s.
Proof. intros H. induction n as [|n IH]; simpl; [done |]. by rewrite H. Qed.

(** What every call preserves holds when the round is over. *)
Lemma deliver_lift (Q : Fsm -> Prop) (listener : Fsm -> Outcome) (n : nat)
    (s : Fsm) :
  (forall x, Q x -> Q (after (listener x))) ->
  (forall x, Q x -> Q (emit Uncaught x)) ->
  Q s -> Q (uncaught (deliver n listener s)).
Proof.
  intros Hcall Hthrow. revert s. induction n as [|n IH]; intros s Hs; [done |].
  simpl. specialize (Hcall s Hs).
  destruct (listener s) as [s'|s']; simpl in *; auto.
Qed.

Section Delivery.

Variable domain : string.
Variable mailboxNumber : string.
Variable inputs : gmap string StateInputs.

(** A property that holds before an event and is kept by every call made
    while the event is delivered holds after it. A settlement is one call,
    made on the instance the event finds. *)
Lemma step_lift (Q : Fsm -> Prop) (s : Fsm) (ev : Event) :
  (forall x y,
     move domain mailboxNumber inputs ev x y ->
     (forall op result, ev = Settled op result -> x = s) ->
     Q x -> Q y) ->
  Q s -> Q (step domain mailboxNumber inputs s ev).
Proof.
  intros Hmove Hs. destruct ev as [digit| |op result]; simpl.
  - apply deliver_lift; [| |done].
    + intros x Hx. apply (Hmove x); [by apply move_dtmf | done | done].
    + intros x Hx. apply (Hmove x); [by apply move_dtmf_uncaught | done | done].
  - apply deliver_lift.
    + intros x Hx. apply (Hmove x); [by apply move_hangup | done | done].
    + intros x Hx.
      apply (Hmove x); [by apply move_hangup_uncaught | done | done].
    + apply (Hmove s); [by apply move_once | done | done].
  - destruct (decide (op ∈ inflight s)) as [Hin|]; [|done].
    apply (Hmove s); [by apply move_settle | done | done].
Qed.

End Delivery.

(* ===================================================================== *)
(** ** Names the grammar may use *)
(* ===================================================================== *)

Lemma resolve_action_names (st : StateInputs) (input action : string) :
  resolve st input = Some action -> action ∈ action_names st.
Proof.
  unfold resolve, action_names. intros H.
  assert (Hk : keys st !! input = Some action ->
               action ∈ map snd (map_to_list (keys st))).
  { intros Hin. apply list_elem_of_In, in_map_iff.
    exists (input, action). split; [done |].
    by apply list_elem_of_In, elem_of_map_to_list. }
  destruct (regex st) as [rule|].
  - destruct (Regex.test (rule_match rule) input).
    + injection H as <-. apply elem_of_cons. by left.
    + apply elem_of_cons. right. auto.
  - simpl. auto.
Qed.

(** What a grammar of action names resolves is no hook and no inherited
    member. *)
Lemma actions_only_resolve (inputs : gmap string StateInputs)
    (name : string) (st : StateInputs) (input action : string) :
  actions_only inputs = true ->
  inputs !! name = Some st ->
  resolve st input = Some action ->
  reserved action = false.
Proof.
  unfold actions_only. intros Hall Hst Hres.
  rewrite forallb_forall in Hall.
  assert (Hin : In (name, st) (map_to_list inputs))
    by (by apply list_elem_of_In, elem_of_map_to_list).
  specialize (Hall (name, st) Hin). simpl in Hall.
  rewrite forallb_forall in Hall.
  apply negb_true_iff, Hall, list_elem_of_In.
  by apply (resolve_action_names st input).
Qed.

Section Dispatch.

Variable domain : string.
Variable mailboxNumber : string.

Lemma member_none (st : State) (inputType : string) (s : Fsm) :
  reserved inputType = false ->
  member domain mailboxNumber st inputType s = None.
Proof.
  unfold reserved, hook, member. intros H.
  apply orb_false_iff in H as [H Hi]. apply orb_false_iff in H as [-> ->].
  by rewrite Hi.
Qed.

(** An action name is served by the action handlers of the state. *)
Lemma handle_actions (inputType arg : string) (s : Fsm) :
  reserved inputType = false ->
  handle domain mailboxNumber inputType arg s
  = actions domain mailboxNumber inputType arg s.
Proof. intros H. unfold handle. by rewrite member_none. Qed.

End Dispatch.
(* ===================================================================== *)
(** ** The resolver of [dtmfHandler] *)
(* ===================================================================== *)

Section Resolver.

Variable domain : string.
Variable mailboxNumber : string.
Variable inputs : gmap string StateInputs.

Lemma resolve_found (st : StateInputs) (rule : RegexRule) (input : string) :
  regex st = Some rule ->
  Regex.found (rule_match rule) (list_ascii_of_string input) ->
  resolve st input = Some (rule_action rule).
Proof.
  intros Hr Hf. unfold resolve. rewrite Hr.
  apply test_found in Hf. by rewrite Hf.
Qed.

Lemma resolve_not_found (st : StateInputs) (input : string) :
  (forall rule, regex st = Some rule ->
     ~ Regex.found (rule_match rule) (list_ascii_of_string input)) ->
  resolve st input = keys st !! input.
Proof.
  intros Hn. unfold resolve. destruct (regex st) as [rule|]; [|done].
  destruct (Regex.test (rule_match rule) input) eqn:Ht; [|done].
  apply test_found in Ht. by destruct (Hn rule eq_refl).
Qed.

(** C2, as the code has it. In a state with a grammar entry the received
    symbol is appended to the buffer and the joined buffer resolves in this
    order: when the state has a pattern rule and the pattern is found
    somewhere in the buffer content (anywhere its anchors allow, so a
    content that merely contains a matching part does resolve), the action
    is the rule's; otherwise, when the content is a key of the literal map,
    the action is the map's value; otherwise nothing resolves and the
    buffer is retained. A resolved, non-empty action name is dispatched
    with the whole content as argument on an emptied buffer; an empty name
    dispatches nothing. Only a pattern anchored at both ends asks for the
    entire content to match. *)
Theorem dtmfHandler_resolution (s : Fsm) (st : StateInputs) (digit : string) :
  inputs !! state_name (state s) = Some st ->
  let kept := set_buffer (buffer s ++ [digit]) s in
  let input := String.concat "" (buffer s ++ [digit]) in
  let dispatch action :=
    if truthy action
    then handle domain mailboxNumber action input (set_buffer [] kept)
    else Normal kept in
  let unmatched :=
    forall rule, regex st = Some rule ->
      ~ Regex.found (rule_match rule) (list_ascii_of_string input) in
  (forall rule, regex st = Some rule ->
     Regex.found (rule_match rule) (list_ascii_of_string input) ->
     dtmfHandler domain mailboxNumber inputs digit s
     = dispatch (rule_action rule)) /\
  (unmatched -> forall action, keys st !! input = Some action ->
     dtmfHandler domain mailboxNumber inputs digit s = dispatch action) /\
  (unmatched -> keys st !! input = None ->
     dtmfHandler domain mailboxNumber inputs digit s = Normal kept) /\
  (forall rule, regex st = Some rule ->
     Regex.bol (rule_match rule) = true ->
     Regex.eol (rule_match rule) = true ->
     (Regex.found (rule_match rule) (list_ascii_of_string input) <->
      Regex.matches (Regex.body (rule_match rule))
        (list_ascii_of_string input))).
Proof.
  intros Hst kept input dispatch unmatched.
  assert (Hd : dtmfHandler domain mailboxNumber inputs digit s =
               match resolve st input with
               | Some action => dispatch action
               | None => Normal kept
               end).
  { unfold dtmfHandler. rewrite Hst. reflexivity. }
  repeat split.
  - intros rule Hr Hf. rewrite Hd, (resolve_found _ _ _ Hr Hf). done.
  - intros Hn action Hk. rewrite Hd, (resolve_not_found _ _ Hn), Hk. done.
  - intros Hn Hk. rewrite Hd, (resolve_not_found _ _ Hn), Hk. done.
  - by apply found_anchored.
  - by apply found_anchored.
Qed.

(** C9. In a state without a grammar entry a received keypad symbol is
    dropped: the handler returns at once and the event leaves the whole
    instance as it was, so the buffer does not grow and nothing is resolved
    or dispatched. *)
Theorem dtmf_without_grammar_entry (s : Fsm) (digit : string) :
  inputs !! state_name (state s) = None ->
  dtmfHandler domain mailboxNumber inputs digit s = Normal s /\
  step domain mailboxNumber inputs s (ChannelDtmfReceived digit) = s.
Proof.
  intros Hst.
  assert (Hd : dtmfHandler domain mailboxNumber inputs digit s = Normal s).
  { unfold dtmfHandler. by rewrite Hst. }
  split; [done |]. simpl. by rewrite deliver_fixed.
Qed.

End Resolver.

(* ===================================================================== *)
(** ** Replay of deferred input *)
(* ===================================================================== *)

Arguments replayed : simpl never.
Arguments inherited : simpl never.
Arguments raises : simpl never.
Arguments processQueue : simpl never.

(** The replay of a queue that holds [authenticate] only. *)
Lemma each_replay (f : string * string -> Fsm -> Outcome)
    (queue : list (string * string)) (s : Fsm) :
  (forall arg x, f ("authenticate", arg) x = waitingForAuth_authenticate arg x) ->
  Forall (fun item => fst item = "authenticate") queue ->
  each f queue s
  = if authContext s
    then Normal (set_inflight
                   (inflight s ++ map OpAuthenticate (replayed queue))
                   (set_effects
                      (effects s ++ map AuthAuthenticate (replayed queue)) s))
    else match replayed queue with
         | [] => Normal s
         | _ :: _ => Throws s
         end.
Proof.
  intros Hf Hq. revert s.
  induction Hq as [|[a arg] queue Ha _ IH]; intros s.
  - destruct s as [? ? ? ? ? [] ? ? ? ? ? ? ? ? ?]; simpl;
      unfold set_inflight, set_effects; simpl; by rewrite ?app_nil_r.
  - simpl in Ha. subst a. simpl. rewrite Hf. unfold replayed. simpl.
    unfold waitingForAuth_authenticate.
    destruct s as [? ? ? ? ? [] ? ? ? ? ? ? ? ? ?]; simpl; [|done].
    rewrite IH. simpl. unfold set_inflight, set_effects, replayed; simpl.
    by rewrite <- !app_assoc.
Qed.

Lemma processQueue_eq (domain mailboxNumber : string) (s : Fsm) :
  Forall (fun item => fst item = "authenticate") (eventQueue s) ->
  processQueue domain mailboxNumber s =
  match state s with
  | waitingForAuth =>
      if authContext s
      then Normal (set_inflight
                     (inflight s ++
                      map OpAuthenticate (replayed (eventQueue s)))
                     (set_effects
                        (effects s ++
                         map AuthAuthenticate (replayed (eventQueue s)))
                        (set_eventQueue [] s)))
      else match replayed (eventQueue s) with
           | [] => Normal (set_eventQueue [] s)
           | _ :: _ => Throws (set_eventQueue [] s)
           end
  | _ => Normal s
  end.
Proof.
  intros Hq. unfold processQueue. destruct (state s); try reflexivity.
  by rewrite each_replay.
Qed.

(** Nothing is replayed on entering another state. *)
Lemma processQueue_idle (domain mailboxNumber : string) (s : Fsm) :
  state s <> waitingForAuth -> processQueue domain mailboxNumber s = Normal s.
Proof. intros H. unfold processQueue. by destruct (state s). Qed.

(** When only [authenticate] was deferred, every queued password is
    replayed. *)
Lemma replayed_all (queue : list (string * string)) :
  Forall (fun item => fst item = "authenticate") queue ->
  replayed queue = map snd queue.
Proof.
  unfold replayed. induction 1 as [|[a arg] queue Ha _ IH]; simpl; [done |].
  simpl in Ha. subst a. simpl. by rewrite IH.
Qed.

(** Whatever is in the queue, its replay leaves the state and the hangup
    flag alone and adds nothing to the buffer. *)
Lemma replay_frame (domain mailboxNumber : string)
    (queue : list (string * string)) (s : Fsm) :
  let s' := after (each (fun item =>
                           waitingForAuth_handle domain mailboxNumber
                             (fst item) (snd item)) queue s) in
  state s' = state s /\ hungup s' = hungup s /\
  (buffer s = [] -> buffer s' = []).
Proof.
  revert s. induction queue as [|[a arg] queue IH]; intros s; [done |].
  simpl.
  assert (Hone : forall x,
            let x' := after (waitingForAuth_handle domain mailboxNumber a arg x)
            in state x' = state x /\ hungup x' = hungup x /\
               (buffer x = [] -> buffer x' = [])).
  { intros x. unfold waitingForAuth_handle, member, waitingForAuth_table,
      waitingForAuth_authenticate.
    destruct x as [? ? ? ? ? [] ? ? ? ? ? ? ? ? ?]; cbn;
      repeat match goal with
      | |- context [if ?b then _ else _] => destruct b; cbn
      end; done. }
  specialize (Hone s).
  destruct (waitingForAuth_handle domain mailboxNumber a arg s) as [x|x];
    simpl in *; [|done].
  destruct (IH x) as (H1 & H2 & H3). destruct Hone as (H4 & H5 & H6).
  repeat split; [congruence | congruence | auto].
Qed.
(* ===================================================================== *)
(** ** Requests in flight *)
(* ===================================================================== *)

Lemma elem_of_settled (op x : Op) (ops : list Op) :
  x ∈ settled op ops -> x ∈ ops.
Proof.
  induction ops as [|o ops IH]; simpl; [done |].
  destruct (decide (o = op)); rewrite ?elem_of_cons; tauto.
Qed.

Lemma settled_here (op : Op) (ops : list Op) : settled op (op :: ops) = ops.
Proof. simpl. by rewrite decide_True. Qed.

Lemma no_late_app (l1 l2 : list Op) :
  no_late (l1 ++ l2) <-> no_late l1 /\ no_late l2.
Proof.
  unfold no_late. split.
  - intros H. split; intros op Hop; apply H, elem_of_app; tauto.
  - intros [H1 H2] op [Hop|Hop]%elem_of_app; auto.
Qed.

Lemma no_late_settled (op : Op) (ops : list Op) :
  no_late ops -> no_late (settled op ops).
Proof. unfold no_late. intros H x Hx%elem_of_settled. auto. Qed.

Lemma no_late_hangup : no_late [OpHangup].
Proof. intros op ->%list_elem_of_singleton. done. Qed.

Lemma no_late_init : no_late [OpInit].
Proof. intros op ->%list_elem_of_singleton. done. Qed.

Lemma no_late_answer : no_late [OpAnswer].
Proof. intros op ->%list_elem_of_singleton. done. Qed.

Lemma no_late_nil : no_late [].
Proof. intros op H. by apply elem_of_nil in H. Qed.

Lemma answer_not_replayed (passwords : list string) :
  OpAnswer ∉ map OpAuthenticate passwords.
Proof.
  induction passwords as [|p ps IH]; simpl.
  - apply not_elem_of_nil.
  - rewrite elem_of_cons. intros [?|?]; [discriminate | done].
Qed.


(* ===================================================================== *)
(** ** Symbolic execution of one call *)
(* ===================================================================== *)

(** Decide the tests the code branches on. *)
Ltac split_tests :=
  repeat match goal with
  | |- context [String.eqb ?a ?b] => destruct (String.eqb a b) eqn:?
  | |- context [inherited ?a] =>
      first [ let b := eval vm_compute in (inherited a) in
              match b with true => idtac | false => idtac end;
              change (inherited a) with b
            | destruct (inherited a) eqn:? ]
  | |- context [raises ?a] =>
      first [ let b := eval vm_compute in (raises a) in
              match b with true => idtac | false => idtac end;
              change (raises a) with b
            | destruct (raises a) eqn:? ]
  | |- context [match ?x with Some _ => _ | None => _ end] =>
      is_var x; destruct x
  | |- context [if ?x then _ else _] => is_var x; destruct x
  | |- context [match replayed ?q with [] => _ | _ :: _ => _ end] =>
      destruct (replayed q) eqn:?
  | |- context [decide (?a = ?b)] =>
      destruct (decide (a = b)); [try discriminate | try congruence]
  end.

(** Run the handlers on an instance whose state is known. *)
Ltac sym_eval :=
  repeat (cbn;
    unfold settle, then_catch, uncaught, after, hangupHandler, handle, member,
      actions, auth_table, ready_table, changingFolder_table, done_table,
      waitingForAuth_handle, waitingForAuth_table,
      waitingForAuth_authenticate, reader_call, bind, transition,
      onEnter, onExit, has_onExit, init_onEnter, register_listeners,
      auth_onEnter, done_onEnter, removeHangupHandler, removeDtmfHandler,
      unregister_once, hangup_listeners, dtmf_listeners, hangup,
      createReader, deferUntilTransition, start, emit;
    rewrite ?processQueue_idle by (cbn; discriminate);
    rewrite ?processQueue_eq by (cbn; first [assumption | apply Forall_nil]);
    cbn; split_tests).

(** All the calls one event can consist of, by state and by branch taken:
    the goal is about the instance [y] the call leaves. *)
Ltac move_cases H :=
  let x := fresh "x" in
  let y := fresh "y" in
  let Hy := fresh "Hy" in
  destruct H as [?digit x y Hy | ?digit x y Hy | x y Hy | x y Hy | x y Hy
                | ?op ?result x y ?Hin Hy];
  revert y Hy;
  destruct x as [st0 buf hu chh cdh ac mb rd q ose odr sh sd infl eff];
  cbn in *;
  [ unfold dtmfHandler; cbn;
    match goal with
    | |- context [?i !! state_name st0] =>
        destruct (i !! state_name st0) as [st|];
        [ destruct (resolve st (String.concat "" (buf ++ [digit])))
            as [action|];
          [ destruct (truthy action) | ] | ]
    end
  | | | | | destruct op, result ];
  destruct st0; sym_eval.

(** Use the clauses of an invariant whose premises are at hand. *)
Ltac use_inv :=
  repeat match goal with
  | H : _ /\ _ |- _ => destruct H
  | H : ?x = ?x -> _ |- _ => specialize (H eq_refl)
  | H : ?a = ?b -> _ |- _ =>
      is_constructor a; is_constructor b; assert_fails (unify a b); clear H
  | H : ?P -> _ /\ (?a = ?b \/ ?c = ?d) |- _ =>
      is_constructor a; is_constructor c;
      assert_fails (unify a b); assert_fails (unify c d);
      assert (~ P) by (let Hx := fresh in
                       intros Hx; destruct (H Hx) as [_ [?|?]]; discriminate);
      clear H
  | H : ?P -> _, H' : ?P |- _ =>
      match type of P with Prop => specialize (H H') end
  end.

Ltac close :=
  try discriminate; try tauto; try congruence;
  eauto using no_late_hangup, no_late_init, no_late_nil, no_late_settled,
    no_late_answer.

Ltac norm_hyps :=
  use_inv; subst;
  repeat (
    match goal with
    | H : _ ∈ [] |- _ => apply elem_of_nil in H; destruct H
    | H : _ ∈ settled _ _ |- _ => apply elem_of_settled in H
    | H : _ ∈ [_] |- _ => apply list_elem_of_singleton in H; try discriminate H
    | H : OpAnswer ∈ map OpAuthenticate _ |- _ =>
        destruct (answer_not_replayed _ H)
    | H : _ ∈ _ ++ _ |- _ => apply elem_of_app in H
    | H : _ \/ _ |- _ => destruct H
    end; use_inv; subst).

(* ===================================================================== *)
(** ** The handlers find what they use *)
(* ===================================================================== *)

Lemma uncaught_not_replayed (passwords : list string) :
  Uncaught ∉ map AuthAuthenticate passwords.
Proof.
  induction passwords as [|p ps IH]; simpl.
  - apply not_elem_of_nil.
  - rewrite elem_of_cons. intros [?|?]; [discriminate | done].
Qed.

Lemma submit_not_replayed (option : string) (passwords : list string) :
  OpSubmitFolder option ∉ map OpAuthenticate passwords.
Proof.
  induction passwords as [|p ps IH]; simpl.
  - apply not_elem_of_nil.
  - rewrite elem_of_cons. intros [?|?]; [discriminate | done].
Qed.

Lemma init_not_replayed (passwords : list string) :
  OpInit ∉ map OpAuthenticate passwords.
Proof.
  induction passwords as [|p ps IH]; simpl.
  - apply not_elem_of_nil.
  - rewrite elem_of_cons. intros [?|?]; [discriminate | done].
Qed.

Ltac equip_hyps :=
  use_inv; subst;
  repeat (
    match goal with
    | H : _ ∈ [] |- _ => apply elem_of_nil in H; destruct H
    | H : _ ∈ settled _ _ |- _ => apply elem_of_settled in H
    | H : _ ∈ [_] |- _ => apply list_elem_of_singleton in H; try discriminate H
    | H : Uncaught ∈ map AuthAuthenticate _ |- _ =>
        destruct (uncaught_not_replayed _ H)
    | H : OpSubmitFolder _ ∈ map OpAuthenticate _ |- _ =>
        destruct (submit_not_replayed _ _ H)
    | H : OpInit ∈ map OpAuthenticate _ |- _ =>
        destruct (init_not_replayed _ H)
    | H : _ ∈ _ ++ _ |- _ => apply elem_of_app in H
    | H : _ \/ _ |- _ => destruct H
    | H : String.eqb _ _ = true |- _ => apply String.eqb_eq in H
    | H : forall o, OpSubmitFolder o ∈ ?l -> _, H' : OpSubmitFolder ?x ∈ ?l
      |- _ => specialize (H x H')
    end; use_inv; subst).

Ltac equip_solve :=
  unfold Equipped in *; cbn in *; use_inv;
  repeat match goal with
  | |- _ /\ _ => split
  | |- Forall _ (_ ++ _) => apply Forall_app; split
  | |- Forall _ [_] => apply Forall_cons; split; [cbn | apply Forall_nil]
  | |- Forall _ [] => apply Forall_nil
  end;
  try assumption;
  try (unfold not in *; intros; equip_hyps;
       try discriminate; try congruence; try tauto; fail).

Section Equipment.

Variable domain : string.
Variable mailboxNumber : string.
Variable inputs : gmap string StateInputs.

Lemma Equipped_create : Equipped create.
Proof.
  unfold Equipped, create; cbn.
  repeat split; intros; try discriminate;
    repeat match goal with
    | H : _ ∈ [_] |- _ => apply list_elem_of_singleton in H; discriminate H
    | |- Forall _ [] => apply Forall_nil
    end.
  exact I.
Qed.

Lemma Equipped_move (ev : Event) (x y : Fsm) :
  move domain mailboxNumber inputs ev x y -> Equipped x -> Equipped y.
Proof.
  intros Hmove Heq. unfold Equipped in Heq.
  destruct Heq as (H1 & H2 & H3 & H4 & H5 & H6 & Hq).
  move_cases Hmove.
  all: intros y <-.
  all: equip_solve.
Qed.

Lemma Equipped_step (s : Fsm) (ev : Event) :
  Equipped s -> Equipped (step domain mailboxNumber inputs s ev).
Proof.
  apply step_lift. intros x y Hmove _. by apply (Equipped_move ev).
Qed.

Lemma Equipped_run (evs : list Event) (s : Fsm) :
  Equipped s -> Equipped (run domain mailboxNumber inputs s evs).
Proof.
  revert s. induction evs as [|ev evs IH]; intros s Heq; simpl; [done |].
  apply IH. by apply Equipped_step.
Qed.

Lemma Equipped_session (evs : list Event) :
  Equipped (run domain mailboxNumber inputs create evs).
Proof. apply Equipped_run, Equipped_create. Qed.

End Equipment.

(* ===================================================================== *)
(** ** Sessions whose grammar names action handlers only *)
(* ===================================================================== *)

Lemma Inv_tidy (s : Fsm) :
  Inv s -> staleStasisEnd s = 0 /\ staleChannelDtmfReceived s = 0.
Proof. unfold Inv. tauto. Qed.

Lemma Equipped_queue (s : Fsm) :
  Equipped s -> Forall (fun item => fst item = "authenticate") (eventQueue s).
Proof. unfold Equipped. tauto. Qed.

(** All the ways one event can run when every listener is registered once
    and the grammar names action handlers only ([Hplain]), by state and by
    branch taken. *)
Ltac step_cases s ev Hplain :=
  let Ht := fresh "Ht" in
  let Hq := fresh "Hq" in
  match goal with H : Inv s |- _ => pose proof (Inv_tidy _ H) as Ht end;
  match goal with
  | H : Equipped s |- _ => pose proof (Equipped_queue _ H) as Hq
  end;
  destruct s as [st0 buf hu chh cdh ac mb rd q ose odr sh sd infl eff];
  cbn in Ht, Hq; destruct Ht as [-> ->];
  destruct ev as [digit| |op result];
  unfold step, dtmf_listeners, hangup_listeners; cbn;
  [ destruct odr; cbn;
    [ unfold dtmfHandler; cbn;
      match goal with
      | |- context [?i !! state_name st0] =>
          let Hst := fresh "Hst" in
          let Hres := fresh "Hres" in
          destruct (i !! state_name st0) as [st|] eqn:Hst;
          [ destruct (resolve st (String.concat "" (buf ++ [digit])))
              as [action|] eqn:Hres;
            [ destruct (truthy action);
              [ rewrite (handle_actions _ _ _ _ _
                           (actions_only_resolve _ _ _ _ _ Hplain Hst Hres))
              | ]
            | ]
          | ]
      end | ]
  | destruct ose; cbn
  | destruct (decide (op ∈ infl)); [destruct op, result | ] ];
  destruct st0; sym_eval.

Ltac inv_solve :=
  unfold Inv in *; cbn in *; use_inv; subst;
  rewrite ?settled_here in *;
  rewrite ?no_late_app in *;
  repeat split; intros; close;
  norm_hyps; close;
  repeat match goal with
  | |- ?x = false => is_var x; destruct x; [exfalso | reflexivity]
  end;
  norm_hyps; close.

Section Reachable.

Variable domain : string.
Variable mailboxNumber : string.
Variable inputs : gmap string StateInputs.
Hypothesis Hplain : actions_only inputs = true.

Lemma Inv_create : Inv create.
Proof.
  unfold Inv, create; cbn.
  repeat split; intros; try discriminate; try done; try tauto.
  apply list_elem_of_singleton. done.
Qed.

Lemma Inv_step (s : Fsm) (ev : Event) :
  Equipped s -> Inv s -> Inv (step domain mailboxNumber inputs s ev).
Proof.
  intros Heq Hinv. step_cases s ev Hplain; try assumption.
  all: inv_solve.
Qed.

(** Both invariants along a run. *)
Lemma Inv_run (evs : list Event) (s : Fsm) :
  Equipped s -> Inv s ->
  Equipped (run domain mailboxNumber inputs s evs) /\
  Inv (run domain mailboxNumber inputs s evs).
Proof.
  revert s. induction evs as [|ev evs IH]; intros s Heq Hinv; simpl; [done |].
  apply IH; [by apply Equipped_step | by apply Inv_step].
Qed.

Lemma Inv_session (evs : list Event) :
  Inv (run domain mailboxNumber inputs create evs).
Proof. apply Inv_run; [apply Equipped_create | apply Inv_create]. Qed.

End Reachable.

(* ===================================================================== *)
(** ** The reader and its creation *)
(* ===================================================================== *)

Lemma settled_count (f : Op -> bool) (op : Op) (ops : list Op) :
  op ∈ ops ->
  length (List.filter f (settled op ops)) + (if f op then 1 else 0)
  = length (List.filter f ops).
Proof.
  induction ops as [|o ops IH]; intros Hin.
  - by apply elem_of_nil in Hin.
  - simpl. destruct (decide (o = op)) as [->|Hne].
    + destruct (f op); simpl; lia.
    + apply elem_of_cons in Hin as [->|Hin]; [done |].
      specialize (IH Hin). simpl. destruct (f o); simpl; lia.
Qed.

Lemma created_replayed (passwords : list string) :
  List.filter created (map AuthAuthenticate passwords) = [].
Proof. induction passwords; simpl; auto. Qed.

Lemma started_replayed (passwords : list string) :
  length (List.filter authenticate_started (map AuthAuthenticate passwords))
  = length passwords.
Proof. induction passwords; simpl; auto. Qed.

Lemma inflight_replayed (passwords : list string) :
  length (List.filter verification (map OpAuthenticate passwords))
  = length passwords.
Proof. induction passwords; simpl; auto. Qed.

Ltac count_solve :=
  unfold Counted, readers_created, verifications_inflight,
    verifications_started in *;
  cbn in *;
  rewrite ?List.filter_app, ?length_app, ?created_replayed,
    ?started_replayed, ?inflight_replayed in *;
  cbn in *;
  repeat match goal with
  | H : ?op ∈ ?ops |- context [settled ?op ?ops] =>
      let Hc := fresh in
      pose proof (settled_count verification op ops H) as Hc;
      cbn in Hc; clear H
  end;
  repeat split; intros; try lia; try done;
  try (match goal with H : _ /\ _ |- _ => destruct H as [_ H]; apply H end;
       lia).

Section Reader.

Variable domain : string.
Variable mailboxNumber : string.
Variable inputs : gmap string StateInputs.

Lemma Counted_create : Counted create.
Proof. unfold Counted; cbn. split; [lia | done]. Qed.

Lemma Counted_move (ev : Event) (x y : Fsm) :
  move domain mailboxNumber inputs ev x y ->
  Equipped x -> Counted x ->
  Counted y /\
  readers_created y
  <= readers_created x + (if verification_fulfilled ev then 1 else 0).
Proof.
  intros Hmove Heq Hc. apply Equipped_queue in Heq.
  move_cases Hmove.
  all: intros y <-.
  all: count_solve.
Qed.

Lemma Counted_step (s : Fsm) (ev : Event) :
  Equipped s -> Counted s ->
  Counted (step domain mailboxNumber inputs s ev) /\
  readers_created (step domain mailboxNumber inputs s ev)
  <= readers_created s + (if verification_fulfilled ev then 1 else 0).
Proof.
  intros Heq Hc.
  enough (H : Equipped (step domain mailboxNumber inputs s ev) /\
              Counted (step domain mailboxNumber inputs s ev) /\
              readers_created (step domain mailboxNumber inputs s ev)
              <= readers_created s +
                 (if verification_fulfilled ev then 1 else 0)) by tauto.
  apply (step_lift domain mailboxNumber inputs
           (fun z => Equipped z /\ Counted z /\
                     readers_created z
                     <= readers_created s +
                        (if verification_fulfilled ev then 1 else 0))).
  - intros x y Hmove Hx (Hxe & Hxc & Hxle).
    split; [by apply (Equipped_move domain mailboxNumber inputs ev x) |].
    destruct (Counted_move ev x y Hmove Hxe Hxc) as [Hyc Hyle].
    split; [done |].
    destruct ev as [digit| |op result]; simpl in *; try lia.
    rewrite (Hx op result eq_refl) in Hyle. done.
  - split; [done |]. split; [done |].
    destruct (verification_fulfilled ev); lia.
Qed.

Lemma Counted_run (evs : list Event) (s : Fsm) :
  Equipped s -> Counted s ->
  Counted (run domain mailboxNumber inputs s evs) /\
  readers_created (run domain mailboxNumber inputs s evs)
  <= readers_created s + verifications_fulfilled evs.
Proof.
  revert s. induction evs as [|ev evs IH]; intros s Heq Hc; simpl.
  - split; [done |]. unfold verifications_fulfilled; simpl. lia.
  - destruct (Counted_step s ev Heq Hc) as [Hc' Hle].
    destruct (IH _ (Equipped_step domain mailboxNumber inputs s ev Heq) Hc')
      as [Hc'' Hle'].
    split; [done |]. unfold verifications_fulfilled in *; simpl.
    destruct (verification_fulfilled ev); simpl; lia.
Qed.

(** C8, as the code has it. Along every event sequence the reader handle
    is null as long as no verification has succeeded, and readers are
    created by successful verifications only: never more of them than
    verifications that succeeded, nor than verifications that were
    started. So the reader is created at most once whenever at most one
    verification succeeds or at most one was started. *)
Theorem reader_created_by_verification (evs : list Event) :
  let s := run domain mailboxNumber inputs create evs in
  (verifications_fulfilled evs = 0 -> reader s = None) /\
  readers_created s <= verifications_fulfilled evs /\
  readers_created s <= verifications_started s /\
  (verifications_fulfilled evs <= 1 \/ verifications_started s <= 1 ->
   readers_created s <= 1).
Proof.
  intros s.
  destruct (Counted_run evs create Equipped_create Counted_create)
    as [[Hc Hn] Hle].
  fold s in Hc, Hn, Hle. change (readers_created create) with 0 in Hle.
  repeat split.
  - intros H0. apply Hn. lia.
  - lia.
  - lia.
  - intros [H|H]; lia.
Qed.

End Reader.

(* ===================================================================== *)
(** ** Answering, and the hangup flag *)
(* ===================================================================== *)

Section Runs.

Variable domain : string.
Variable mailboxNumber : string.
Variable inputs : gmap string StateInputs.

Lemma run_app (s : Fsm) (evs1 evs2 : list Event) :
  run domain mailboxNumber inputs s (evs1 ++ evs2)
  = run domain mailboxNumber inputs
      (run domain mailboxNumber inputs s evs1) evs2.
Proof. unfold run. apply fold_left_app. Qed.

Lemma run_cons (s : Fsm) (ev : Event) (evs : list Event) :
  run domain mailboxNumber inputs s (ev :: evs)
  = run domain mailboxNumber inputs
      (step domain mailboxNumber inputs s ev) evs.
Proof. reflexivity. Qed.

Lemma run_nil (s : Fsm) : run domain mailboxNumber inputs s [] = s.
Proof. reflexivity. Qed.

Lemma Spent_step (s : Fsm) (ev : Event) :
  Spent s -> step domain mailboxNumber inputs s ev = s.
Proof.
  intros (Hst & Hfl & Hh & Hd). destruct ev as [digit| |op result]; simpl.
  - by rewrite Hd.
  - rewrite Hh. simpl.
    destruct s as [st0 buf hu chh cdh ac mb rd q ose odr sh sd infl eff].
    unfold hangup_listeners in Hh. cbn in *.
    destruct ose; [lia |]. replace sh with 0 by lia. reflexivity.
  - rewrite Hfl. rewrite decide_False; [done | apply not_elem_of_nil].
Qed.

Lemma Spent_run (evs : list Event) (s : Fsm) :
  Spent s -> run domain mailboxNumber inputs s evs = s.
Proof.
  intros Hs. induction evs as [|ev evs IH]; simpl; [done |].
  by rewrite Spent_step.
Qed.

(** *** While the answer is awaited, under any grammar *)

Lemma Answering_create : Answering create.
Proof.
  unfold Answering; cbn. repeat split. by apply list_elem_of_singleton.
Qed.

Lemma Answering_call (digit : string) (x : Fsm) :
  Answering x ->
  Answering (after (dtmfHandler domain mailboxNumber inputs digit x)).
Proof.
  destruct x as [st0 buf hu chh cdh ac mb rd q ose odr sh sd infl eff].
  unfold Answering, hangups_requested; cbn. intros (-> & Hin & Hh & ->).
  unfold dtmfHandler; cbn.
  destruct (inputs !! "init") as [st|]; cbn; [|done].
  destruct (resolve st _) as [action|]; cbn; [|done].
  destruct (truthy action); cbn; [|done].
  sym_eval; rewrite ?List.filter_app, ?length_app; cbn;
    repeat split; try done; try lia.
  all: apply elem_of_app; by left.
Qed.

Lemma Answering_dtmf (s : Fsm) (digit : string) :
  Answering s ->
  Answering (step domain mailboxNumber inputs s (ChannelDtmfReceived digit)).
Proof.
  intros Ha. simpl. apply deliver_lift; [| |done].
  - intros x. apply Answering_call.
  - intros x. destruct x. unfold Answering, hangups_requested; cbn.
    rewrite List.filter_app, length_app; cbn. intros (? & ? & ? & ?).
    repeat split; try done; lia.
Qed.

Lemma Answering_dialled (digits : list string) (s : Fsm) :
  Answering s -> Answering (run domain mailboxNumber inputs s (dtmf digits)).
Proof.
  revert s. induction digits as [|d digits IH]; intros s Ha; simpl; [done |].
  apply IH. by apply Answering_dtmf.
Qed.

Lemma Answering_fulfilled (s : Fsm) (value : string) :
  Answering s ->
  state (step domain mailboxNumber inputs s (Settled OpAnswer (Fulfilled value)))
  = auth.
Proof.
  destruct s as [st0 buf hu chh cdh ac mb rd q ose odr sh sd infl eff].
  unfold Answering; cbn. intros (-> & Hin & _).
  rewrite decide_True by done. sym_eval. reflexivity.
Qed.

Lemma Answering_rejected (s : Fsm) (name : string) :
  Answering s ->
  let s' := step domain mailboxNumber inputs s
              (Settled OpAnswer (Rejected name)) in
  state s' = done /\ hangups_requested s' = 0 /\ hungup s' = false.
Proof.
  destruct s as [st0 buf hu chh cdh ac mb rd q ose odr sh sd infl eff].
  unfold Answering, hangups_requested; cbn. intros (-> & Hin & Hh & ->).
  rewrite decide_True by done.
  sym_eval; rewrite ?List.filter_app, ?length_app; cbn;
    repeat split; try done; lia.
Qed.

(** *** The hangup flag, call by call *)

Lemma uncaught_hungup (m : Outcome) : hungup (uncaught m) = hungup (after m).
Proof. by destruct m as [[]|[]]. Qed.

Lemma dtmfHandler_hungup (digit : string) (x : Fsm) :
  hungup (after (dtmfHandler domain mailboxNumber inputs digit x)) = hungup x.
Proof.
  destruct x as [st0 buf hu chh cdh ac mb rd q ose odr sh sd infl eff].
  unfold dtmfHandler; cbn.
  destruct (inputs !! state_name st0) as [st|]; cbn; [|done].
  destruct (resolve st _) as [action|]; cbn; [|done].
  destruct (truthy action); cbn; [|done].
  destruct st0; sym_eval; reflexivity.
Qed.

Lemma transition_hungup (st' : State) (x : Fsm) :
  hungup (after (transition domain mailboxNumber st' x)) = hungup x.
Proof.
  unfold transition. destruct (decide (st' = state x)); [done |].
  destruct x as [st0 buf hu [] [] ac mb rd q ose odr sh sd infl eff].
  all: destruct st'; cbn;
    try (rewrite processQueue_idle by (destruct st0; cbn; discriminate);
         destruct st0; reflexivity).
  all: unfold processQueue; cbn;
    match goal with
    | |- context [each ?f ?queue ?s0] =>
        destruct (replay_frame domain mailboxNumber queue s0) as (_ & -> & _)
    end; by destruct st0.
Qed.

Lemma then_catch_hungup (f g : string -> Fsm -> Outcome) (result : Result)
    (x : Fsm) :
  (forall v z, hungup (after (f v z)) = hungup z) ->
  (forall name z, hungup (after (g name z)) = hungup z) ->
  hungup (then_catch f g result x) = hungup x.
Proof.
  intros Hf Hg. unfold then_catch. destruct result as [v|name].
  - specialize (Hf v x). destruct (f v x) as [s'|s']; simpl in Hf; [done |].
    by rewrite uncaught_hungup, Hg.
  - by rewrite uncaught_hungup, Hg.
Qed.

Lemma settle_hungup (op : Op) (result : Result) (x : Fsm) :
  hungup (settle domain mailboxNumber op result x) = hungup x.
Proof.
  destruct op; simpl; [| | | | done].
  all: apply then_catch_hungup; intros ? z; rewrite ?transition_hungup;
    try (by destruct z).
  destruct (String.eqb name "InvalidPassword"); by destruct z.
Qed.

Lemma hangupHandler_hungup (x : Fsm) :
  hungup (after (hangupHandler domain mailboxNumber x)) = true.
Proof.
  unfold hangupHandler. rewrite transition_hungup. by destruct x.
Qed.

Lemma notified_hungup (s : Fsm) :
  0 < hangup_listeners s ->
  hungup (step domain mailboxNumber inputs s StasisEnd) = true.
Proof.
  intros Hl. simpl. destruct (hangup_listeners s) as [|n]; [lia |]. simpl.
  pose proof (hangupHandler_hungup (unregister_once s)) as Hh.
  destruct (hangupHandler domain mailboxNumber (unregister_once s))
    as [s'|s']; simpl in *.
  - apply (deliver_lift (fun z => hungup z = true)); [| |done].
    + intros x _. apply hangupHandler_hungup.
    + intros x Hx. by destruct x.
  - by destruct s'.
Qed.

Lemma step_hungup (s : Fsm) (ev : Event) :
  hungup (step domain mailboxNumber inputs s ev) = hungup s \/
  (ev = StasisEnd /\ 0 < hangup_listeners s /\
   hungup (step domain mailboxNumber inputs s ev) = true).
Proof.
  destruct ev as [digit| |op result]; simpl.
  - left. apply (deliver_lift (fun z => hungup z = hungup s)); [| |done].
    + intros x <-. apply dtmfHandler_hungup.
    + intros x <-. by destruct x.
  - destruct (hangup_listeners s) as [|n] eqn:Hn.
    + left. by destruct s.
    + right. split; [done |]. split; [lia |].
      pose proof (notified_hungup s) as Hh. simpl in Hh.
      rewrite Hn in Hh. apply Hh. lia.
  - left. destruct (decide (op ∈ inflight s)); [|done].
    rewrite settle_hungup. by destruct s.
Qed.

End Runs.

(** *** While the answer is awaited, with a grammar of action names *)

Section Ring.

Variable domain : string.
Variable mailboxNumber : string.
Variable inputs : gmap string StateInputs.
Hypothesis Hplain : actions_only inputs = true.

Lemma Ringing_create : Ringing create.
Proof. unfold Ringing; cbn. tauto. Qed.

Lemma Ringing_dtmf (s : Fsm) (digit : string) :
  Ringing s ->
  Ringing (step domain mailboxNumber inputs s (ChannelDtmfReceived digit)).
Proof.
  intros Hr. destruct s as [st0 buf hu chh cdh ac mb rd q ose odr sh sd infl eff].
  unfold Ringing in *; cbn in *.
  destruct Hr as (-> & -> & -> & -> & -> & -> & -> & -> & -> & -> & ->).
  unfold dtmf_listeners, dtmfHandler; cbn.
  destruct (inputs !! "init") as [st|] eqn:Hst; cbn; [|tauto].
  destruct (resolve st _) as [action|] eqn:Hres; cbn; [|tauto].
  destruct (truthy action); cbn; [|tauto].
  rewrite (handle_actions _ _ _ _ _
             (actions_only_resolve _ _ _ _ _ Hplain Hst Hres)).
  cbn. tauto.
Qed.

Lemma Ringing_dialled (digits : list string) (s : Fsm) :
  Ringing s -> Ringing (run domain mailboxNumber inputs s (dtmf digits)).
Proof.
  revert s. induction digits as [|d digits IH]; intros s Hr; simpl; [done |].
  apply IH. by apply Ringing_dtmf.
Qed.

Lemma Ringing_rejected (s : Fsm) (name : string) :
  Ringing s ->
  Spent (step domain mailboxNumber inputs s (Settled OpAnswer (Rejected name))).
Proof.
  intros Hr. destruct s as [st0 buf hu chh cdh ac mb rd q ose odr sh sd infl eff].
  unfold Ringing in *; cbn in *.
  destruct Hr as (-> & -> & -> & -> & -> & -> & -> & -> & -> & -> & ->).
  rewrite decide_True by (by apply list_elem_of_singleton).
  sym_eval. unfold Spent; cbn. tauto.
Qed.

(** Once the answer has failed nothing reaches the instance any more. *)
Lemma failed_answer_spent (digits : list string) (name : string) :
  Spent (run domain mailboxNumber inputs create
           (dtmf digits ++ [Settled OpAnswer (Rejected name)])).
Proof.
  rewrite run_app, run_cons, run_nil.
  apply Ringing_rejected, Ringing_dialled, Ringing_create.
Qed.

End Ring.

Section Answer.

Variable domain : string.
Variable mailboxNumber : string.
Variable inputs : gmap string StateInputs.

(** C7. The entry hook of 'init', run as the instance is constructed,
    registers the hangup and the keypad listener, one of each, and then
    requests the answer, which is the only request in flight. When the
    answer succeeds, whatever was dialled meanwhile, the state becomes
    'auth'. When it fails the state becomes 'done' at once and
    [channel.hangup] has not been requested; and when the grammar names
    action handlers only, it is not requested by anything that happens
    afterwards either: the instance does not react to any further
    event. *)
Theorem init_answers_or_is_done (digits : list string) :
  (state create = init /\
   currentHangupHandler create = true /\ onStasisEnd create = true /\
   currentDtmfHandler create = true /\ onChannelDtmfReceived create = true /\
   hangup_listeners create = 1 /\ dtmf_listeners create = 1 /\
   inflight create = [OpAnswer] /\ effects create = [ChannelAnswer]) /\
  (forall value,
     state (run domain mailboxNumber inputs create
              (dtmf digits ++ [Settled OpAnswer (Fulfilled value)])) = auth) /\
  (forall name,
     let failed := run domain mailboxNumber inputs create
                     (dtmf digits ++ [Settled OpAnswer (Rejected name)]) in
     state failed = done /\
     hangups_requested failed = 0 /\
     (actions_only inputs = true ->
      forall evs, run domain mailboxNumber inputs failed evs = failed)).
Proof.
  pose proof (Answering_dialled domain mailboxNumber inputs digits create
                Answering_create) as Ha.
  split; [cbn; tauto |]. split.
  - intros value. rewrite run_app, run_cons, run_nil.
    by apply Answering_fulfilled.
  - intros name failed.
    assert (Hf : state failed = done /\ hangups_requested failed = 0 /\
                 hungup failed = false).
    { unfold failed. rewrite run_app, run_cons, run_nil.
      by apply Answering_rejected. }
    destruct Hf as (Hs & Hh & _). split; [done |]. split; [done |].
    intros Hplain evs. apply Spent_run.
    by apply failed_answer_spent.
Qed.

(** C10. The [hungup] flag becomes true only in a step that delivers the
    hangup notification to a registered listener, and no step clears
    it; a session that is notified of the hangup has it set. A session
    whose answer request fails ends in 'done' with the flag unset; and
    when the grammar names action handlers only, the state stays 'done'
    and the flag stays unset whatever happens afterwards. *)
Theorem hungup_set_by_notification_only (s : Fsm) (ev : Event) :
  (hungup (step domain mailboxNumber inputs s ev) = true ->
   hungup s = true \/ (ev = StasisEnd /\ 0 < hangup_listeners s)) /\
  (hungup s = true -> hungup (step domain mailboxNumber inputs s ev) = true) /\
  (0 < hangup_listeners s ->
   hungup (step domain mailboxNumber inputs s StasisEnd) = true) /\
  (forall digits name,
     let ended := run domain mailboxNumber inputs create
                    (dtmf digits ++ [Settled OpAnswer (Rejected name)]) in
     state ended = done /\ hungup ended = false /\
     (actions_only inputs = true ->
      forall evs,
        let later := run domain mailboxNumber inputs ended evs in
        state later = done /\ hungup later = false)).
Proof.
  split; [|split; [|split]].
  - intros H.
    destruct (step_hungup domain mailboxNumber inputs s ev)
      as [Heq|(-> & Hl & _)].
    + left. congruence.
    + right. done.
  - intros H.
    destruct (step_hungup domain mailboxNumber inputs s ev)
      as [Heq|(_ & _ & Ht)]; congruence.
  - apply notified_hungup.
  - intros digits name ended.
    assert (Hf : state ended = done /\ hangups_requested ended = 0 /\
                 hungup ended = false).
    { unfold ended. rewrite run_app, run_cons, run_nil.
      apply Answering_rejected, Answering_dialled, Answering_create. }
    destruct Hf as (Hs & _ & Hh). split; [done |]. split; [done |].
    intros Hplain evs later. unfold later.
    rewrite Spent_run by (by apply failed_answer_spent). done.
Qed.

End Answer.

(* ===================================================================== *)
(** ** The digit buffer *)
(* ===================================================================== *)

Lemma uncaught_buffer (m : Outcome) : buffer (uncaught m) = buffer (after m).
Proof. by destruct m as [[]|[]]. Qed.

Ltac entry_solve :=
  cbn in *; intros;
  try reflexivity; try congruence;
  try (match goal with H : _ \/ _ |- _ => destruct H; discriminate end);
  unfold Inv in *; cbn in *; norm_hyps;
  repeat match goal with
  | H : no_late ?l, H' : ?op ∈ ?l |- _ =>
      specialize (H op H'); discriminate H
  | H : ?b <> [] -> no_late _ |- ?b = [] =>
      destruct b; [reflexivity | specialize (H ltac:(discriminate))]
  end.

Section Entry.

Variable domain : string.
Variable mailboxNumber : string.
Variable inputs : gmap string StateInputs.
Hypothesis Hplain : actions_only inputs = true.

Lemma entry_buffer (s : Fsm) (ev : Event) :
  Equipped s -> Inv s ->
  let s' := step domain mailboxNumber inputs s ev in
  state s' <> state s ->
  state s' = ready \/ state s' = changingFolder ->
  buffer s' = [].
Proof.
  intros Heq Hinv. step_cases s ev Hplain.
  all: entry_solve.
Qed.

End Entry.

Section Buffer.

Variable domain : string.
Variable mailboxNumber : string.
Variable inputs : gmap string StateInputs.

Lemma handle_keeps_buffer_empty (action arg : string) (s : Fsm) :
  buffer s = [] ->
  buffer (uncaught (handle domain mailboxNumber action arg s)) = [].
Proof.
  destruct s as [st0 buf hu chh cdh ac mb rd q ose odr sh sd infl eff].
  cbn. intros ->. destruct st0; sym_eval; reflexivity.
Qed.

Lemma exit_clears_buffer (st' : State) (s : Fsm) :
  state s = waitingForAuth \/ state s = ready \/ state s = changingFolder ->
  st' <> state s ->
  buffer (uncaught (transition domain mailboxNumber st' s)) = [].
Proof.
  intros Hst Hne. rewrite uncaught_buffer. unfold transition.
  rewrite decide_False by done.
  destruct s as [st0 buf hu [] [] ac mb rd q ose odr sh sd infl eff].
  all: cbn in Hst.
  all: destruct st0; try (destruct Hst as [?|[?|?]]; discriminate).
  all: destruct st'; cbn;
    try (rewrite processQueue_idle by (cbn; discriminate); reflexivity).
  all: try (by destruct Hne).
  all: unfold processQueue; cbn;
    match goal with
    | |- context [each ?f ?queue ?s0] =>
        destruct (replay_frame domain mailboxNumber queue s0) as (_ & _ & ->)
    end; reflexivity.
Qed.

(** C3, as the code has it. The buffer is emptied at the instant an action
    is resolved from it, before the handler runs, and is still empty when
    the handler is done; it is emptied by the exit hooks of
    'waitingForAuth', 'ready' and 'changingFolder', the states that have
    one, and by the entry hook of 'init'. Hence, when the grammar names
    action handlers only, along every event sequence the buffer is empty
    whenever 'ready' or 'changingFolder' is entered, and it holds only
    symbols received since. *)
Theorem buffer_cleared_on_resolution_and_exit :
  (forall s st digit action,
     inputs !! state_name (state s) = Some st ->
     resolve st (String.concat "" (buffer s ++ [digit])) = Some action ->
     truthy action = true ->
     dtmfHandler domain mailboxNumber inputs digit s
     = handle domain mailboxNumber action
         (String.concat "" (buffer s ++ [digit]))
         (set_buffer [] (set_buffer (buffer s ++ [digit]) s)) /\
     buffer (uncaught (dtmfHandler domain mailboxNumber inputs digit s))
     = []) /\
  (forall s st',
     state s = waitingForAuth \/ state s = ready \/ state s = changingFolder ->
     st' <> state s ->
     buffer (uncaught (transition domain mailboxNumber st' s)) = []) /\
  (actions_only inputs = true ->
   forall evs ev,
     let s := run domain mailboxNumber inputs create evs in
     let s' := step domain mailboxNumber inputs s ev in
     state s' <> state s ->
     state s' = ready \/ state s' = changingFolder ->
     buffer s' = []) /\
  buffer create = [].
Proof.
  split; [|split; [|split]].
  - intros s st digit action Hst Hres Htr.
    assert (Hd : dtmfHandler domain mailboxNumber inputs digit s
                 = handle domain mailboxNumber action
                     (String.concat "" (buffer s ++ [digit]))
                     (set_buffer [] (set_buffer (buffer s ++ [digit]) s))).
    { unfold dtmfHandler. rewrite Hst. cbn. rewrite Hres, Htr. reflexivity. }
    split; [done |]. rewrite Hd. by apply handle_keeps_buffer_empty.
  - intros s st'. apply exit_clears_buffer.
  - intros Hplain evs ev s s'. apply entry_buffer; [done | |].
    + apply Equipped_session.
    + by apply Inv_session.
  - reflexivity.
Qed.

End Buffer.

(* ===================================================================== *)
(** ** Deferred [authenticate] *)
(* ===================================================================== *)

Section Deferred.

Variable domain : string.
Variable mailboxNumber : string.
Variable inputs : gmap string StateInputs.

Lemma replayed_snoc (queue : list (string * string)) (arg : string) :
  replayed (queue ++ [("authenticate", arg)]) = replayed queue ++ [arg].
Proof. unfold replayed. rewrite List.filter_app, map_app. reflexivity. Qed.

Lemma transition_without_queue (st' : State) (s : Fsm) :
  eventQueue s = [] ->
  let s' := uncaught (transition domain mailboxNumber st' s) in
  verifications_started s' = verifications_started s /\ eventQueue s' = [].
Proof.
  destruct s as [st0 buf hu chh cdh ac mb rd q ose odr sh sd infl eff].
  cbn. intros ->.
  destruct st0, st'; sym_eval;
    unfold verifications_started; cbn;
    rewrite ?List.filter_app, ?length_app; cbn; split; (lia || done).
Qed.

(** Deferral and replay on any instance whose auth context is set and
    whose queue holds [authenticate] only. *)
Lemma deferred_replay_at (s : Fsm) :
  (forall arg,
     state s = auth ->
     handle domain mailboxNumber "authenticate" arg s
     = Normal (set_eventQueue (eventQueue s ++ [("authenticate", arg)]) s) /\
     replayed (eventQueue s ++ [("authenticate", arg)])
     = replayed (eventQueue s) ++ [arg]) /\
  (forall mbox,
     state s = auth -> authContext s = true -> OpInit ∈ inflight s ->
     Forall (fun item => fst item = "authenticate") (eventQueue s) ->
     let s' := step domain mailboxNumber inputs s
                 (Settled OpInit (Fulfilled mbox)) in
     state s' = waitingForAuth /\
     eventQueue s' = [] /\
     inflight s'
     = settled OpInit (inflight s) ++
       map OpAuthenticate (replayed (eventQueue s)) /\
     effects s'
     = effects s ++ map AuthAuthenticate (replayed (eventQueue s))) /\
  (forall st',
     eventQueue s = [] ->
     let s' := uncaught (transition domain mailboxNumber st' s) in
     verifications_started s' = verifications_started s /\
     eventQueue s' = []).
Proof.
  split; [|split].
  - intros arg Hst. split; [|apply replayed_snoc].
    rewrite handle_actions by reflexivity.
    unfold actions. rewrite Hst. reflexivity.
  - destruct s as [st0 buf hu chh cdh ac mb rd q ose odr sh sd infl eff].
    cbn. intros mbox -> -> Hin Hq. rewrite decide_True by done.
    sym_eval. tauto.
  - intros st'. apply (transition_without_queue st' s).
Qed.

End Deferred.

(* ===================================================================== *)
(** ** Verification and folder change *)
(* ===================================================================== *)

Section Handlers.

Variable domain : string.
Variable mailboxNumber : string.
Variable inputs : gmap string StateInputs.

(** No call of the keypad listener leaves 'waitingForAuth' or 'auth'. *)
Lemma dtmfHandler_stays (st : State) (digit : string) (x : Fsm) :
  st = waitingForAuth \/ st = auth ->
  state x = st ->
  state (after (dtmfHandler domain mailboxNumber inputs digit x)) = st.
Proof.
  destruct x as [st0 buf hu chh cdh ac mb rd q ose odr sh sd infl eff].
  cbn. intros Hst <-. unfold dtmfHandler; cbn.
  destruct (inputs !! state_name st0) as [e|]; [|done].
  destruct (resolve e _) as [action|]; [|done].
  destruct (truthy action); [|done].
  destruct Hst as [->| ->]; sym_eval; reflexivity.
Qed.

Lemma dtmf_stays (st : State) (s : Fsm) (digit : string) :
  st = waitingForAuth \/ st = auth ->
  state s = st ->
  state (step domain mailboxNumber inputs s (ChannelDtmfReceived digit)) = st.
Proof.
  intros Hst Hs. simpl.
  apply (deliver_lift (fun z => state z = st)); [| |done].
  - intros x. by apply dtmfHandler_stays.
  - intros x <-. by destruct x.
Qed.

Lemma dialled_stays (st : State) (digits : list string) (s : Fsm) :
  st = waitingForAuth \/ st = auth ->
  state s = st ->
  state (run domain mailboxNumber inputs s (dtmf digits)) = st.
Proof.
  intros Hst. revert s.
  induction digits as [|d digits IH]; intros s Hs; simpl; [done |].
  apply IH. by apply dtmf_stays.
Qed.

(** A notification that finds a listener of the instance makes the state
    'done'. *)
Lemma notified_done (s : Fsm) :
  0 < hangup_listeners s ->
  state (step domain mailboxNumber inputs s StasisEnd) = done.
Proof.
  intros Hl. simpl. destruct (hangup_listeners s) as [|n]; [lia |]. simpl.
  assert (Hcall : forall x,
            state (after (hangupHandler domain mailboxNumber x)) = done).
  { intros x.
    destruct x as [st0 buf hu chh cdh ac mb rd q ose odr sh' sd infl eff].
    destruct st0; sym_eval; reflexivity. }
  pose proof (Hcall (unregister_once s)) as Hfirst.
  destruct (hangupHandler domain mailboxNumber (unregister_once s))
    as [s'|s']; simpl in *.
  - apply (deliver_lift (fun z => state z = done)); [| |done].
    + intros x _. apply Hcall.
    + intros x Hx. by destruct x.
  - by destruct s'.
Qed.

(** [authenticate] in 'waitingForAuth' starts a verification. *)
Lemma authenticate_starts (x : Fsm) (password : string) :
  state x = waitingForAuth -> authContext x = true ->
  handle domain mailboxNumber "authenticate" password x
  = Normal (start (OpAuthenticate password)
              (emit (AuthAuthenticate password) x)).
Proof.
  intros Hst Hac. rewrite handle_actions by reflexivity.
  unfold actions, waitingForAuth_table, waitingForAuth_authenticate.
  rewrite Hst, Hac. reflexivity.
Qed.

(** A verification that succeeds creates the reader and makes the state
    'ready', whatever the state was. *)
Lemma verification_fulfilled_at (x : Fsm) (password value : string) :
  OpAuthenticate password ∈ inflight x ->
  let x' := step domain mailboxNumber inputs x
              (Settled (OpAuthenticate password) (Fulfilled value)) in
  state x' = ready /\ reader x' = Some (readers_created x) /\
  readers_created x' = S (readers_created x) /\ hungup x' = hungup x.
Proof.
  destruct x as [st0 buf hu chh cdh ac mb rd q ose odr sh sd infl eff].
  cbn. intros Hin. rewrite decide_True by done.
  destruct st0; sym_eval; unfold readers_created; cbn;
    rewrite !List.filter_app, !length_app; cbn; repeat split; lia.
Qed.

(** What the rejection of a verification leaves. *)
Lemma rejection_leaves (s : Fsm) (password name : string) :
  OpAuthenticate password ∈ inflight s ->
  step domain mailboxNumber inputs s
    (Settled (OpAuthenticate password) (Rejected name))
  = let s' := emit (LoggerError "error authenticating")
                (set_inflight (settled (OpAuthenticate password) (inflight s))
                   s) in
    if String.eqb name "InvalidPassword" then s' else hangup s'.
Proof.
  intros Hin. cbn. rewrite decide_True by done.
  cbn. unfold then_catch. cbn.
  by destruct (String.eqb name "InvalidPassword").
Qed.

(** A rejected verification on any instance whose auth context is set. *)
Lemma rejected_verification_at (s : Fsm) (password : string) :
  state s = waitingForAuth ->
  authContext s = true ->
  OpAuthenticate password ∈ inflight s ->
  (let s' := step domain mailboxNumber inputs s
               (Settled (OpAuthenticate password)
                  (Rejected "InvalidPassword")) in
   state s' = waitingForAuth /\
   reader s' = reader s /\
   readers_created s' = readers_created s /\
   hangups_requested s' = hangups_requested s /\
   forall retry value,
     let s1 := uncaught (handle domain mailboxNumber "authenticate" retry s')
     in
     let s2 := step domain mailboxNumber inputs s1
                 (Settled (OpAuthenticate retry) (Fulfilled value)) in
     state s1 = waitingForAuth /\
     OpAuthenticate retry ∈ inflight s1 /\
     state s2 = ready /\
     reader s2 = Some (readers_created s) /\
     readers_created s2 = S (readers_created s)) /\
  (forall name,
     name <> "InvalidPassword" ->
     let s' := step domain mailboxNumber inputs s
                 (Settled (OpAuthenticate password) (Rejected name)) in
     state s' = waitingForAuth /\
     reader s' = reader s /\
     hangups_requested s' = S (hangups_requested s) /\
     OpHangup ∈ inflight s' /\
     (forall digits,
        state (run domain mailboxNumber inputs s' (dtmf digits))
        = waitingForAuth) /\
     (forall result,
        state (step domain mailboxNumber inputs s' (Settled OpHangup result))
        = waitingForAuth) /\
     (onStasisEnd s = true ->
      state (step domain mailboxNumber inputs s' StasisEnd) = done) /\
     (forall retry value,
        let s1 := uncaught (handle domain mailboxNumber "authenticate" retry s')
        in
        let s2 := step domain mailboxNumber inputs s1
                    (Settled (OpAuthenticate retry) (Fulfilled value)) in
        OpAuthenticate retry ∈ inflight s1 /\
        state s2 = ready /\
        reader s2 = Some (readers_created s) /\
        hungup s2 = hungup s)).
Proof.
  intros Hst Hac Hin.
  assert (Hretry : forall s' retry value,
            state s' = waitingForAuth -> authContext s' = true ->
            let s1 := uncaught (handle domain mailboxNumber "authenticate"
                                  retry s') in
            let s2 := step domain mailboxNumber inputs s1
                        (Settled (OpAuthenticate retry) (Fulfilled value)) in
            state s1 = state s' /\
            OpAuthenticate retry ∈ inflight s1 /\
            state s2 = ready /\
            reader s2 = Some (readers_created s') /\
            readers_created s2 = S (readers_created s') /\
            hungup s2 = hungup s').
  { intros s' retry value Hst' Hac' s1 s2.
    assert (H1 : s1 = start (OpAuthenticate retry)
                        (emit (AuthAuthenticate retry) s')).
    { unfold s1. by rewrite authenticate_starts. }
    assert (Hin1 : OpAuthenticate retry ∈ inflight s1).
    { rewrite H1. cbn. apply elem_of_app. right.
      by apply list_elem_of_singleton. }
    destruct (verification_fulfilled_at s1 retry value Hin1)
      as (H2 & H3 & H4 & H5).
    fold s2 in H2, H3, H4, H5.
    assert (H6 : readers_created s1 = readers_created s' /\
                 state s1 = state s' /\ hungup s1 = hungup s').
    { rewrite H1. destruct s'. unfold readers_created; cbn.
      rewrite List.filter_app, length_app; cbn. repeat split. lia. }
    destruct H6 as (H6 & H7 & H8).
    repeat split; congruence. }
  split.
  - cbn zeta. rewrite (rejection_leaves s password _ Hin). cbn zeta.
    change (String.eqb "InvalidPassword" "InvalidPassword") with true.
    cbn match.
    set (s' := emit _ _).
    assert (Hs' : state s' = state s /\ authContext s' = authContext s /\
                  reader s' = reader s /\
                  readers_created s' = readers_created s /\
                  hangups_requested s' = hangups_requested s /\
                  hungup s' = hungup s).
    { unfold s'. destruct s. unfold readers_created, hangups_requested; cbn.
      rewrite !List.filter_app, !length_app; cbn. repeat split; lia. }
    destruct Hs' as (E1 & E2 & E3 & E4 & E5 & E6).
    repeat split; try congruence.
    all: destruct (Hretry s' retry value) as (R1 & R2 & R3 & R4 & R5 & R6);
      congruence.
  - intros name Hname. apply String.eqb_neq in Hname.
    cbn zeta. rewrite (rejection_leaves s password _ Hin). cbn zeta.
    rewrite Hname.
    set (s' := hangup _).
    assert (Hs' : state s' = state s /\ authContext s' = authContext s /\
                  reader s' = reader s /\
                  readers_created s' = readers_created s /\
                  hangups_requested s' = S (hangups_requested s) /\
                  hungup s' = hungup s /\
                  OpHangup ∈ inflight s' /\
                  onStasisEnd s' = onStasisEnd s).
    { unfold s'. destruct s. unfold readers_created, hangups_requested; cbn.
      rewrite !List.filter_app, !length_app; cbn. repeat split; try lia.
      apply elem_of_app. right. by apply list_elem_of_singleton. }
    destruct Hs' as (E1 & E2 & E3 & E4 & E5 & E6 & E7 & E8).
    split; [congruence |]. split; [done |]. split; [done |].
    split; [done |]. split; [|split; [|split]].
    + intros digits. apply dialled_stays; [by left | congruence].
    + intros result. cbn. rewrite decide_True by done. cbn. congruence.
    + intros Hl. apply notified_done. unfold hangup_listeners.
      rewrite E8, Hl. lia.
    + intros retry value.
      destruct (Hretry s' retry value) as (R1 & R2 & R3 & R4 & R5 & R6);
        [congruence | congruence |].
      repeat split; congruence.
Qed.

(** The actions of 'changingFolder' on any instance whose reader is
    set. *)
Lemma folder_actions_at (s : Fsm) (r : nat) (arg : string) :
  state s = changingFolder ->
  reader s = Some r ->
  (let s1 := uncaught (handle domain mailboxNumber "submit" arg s) in
   handle domain mailboxNumber "submit" arg s
   = Normal (start (OpSubmitFolder arg)
               (emit (ReaderCall r "submitFolder" [arg]) s)) /\
   state s1 = changingFolder /\
   OpSubmitFolder arg ∈ inflight s1 /\
   (forall value,
      state (step domain mailboxNumber inputs s1
               (Settled (OpSubmitFolder arg) (Fulfilled value))) = ready) /\
   (forall name,
      let s2 := step domain mailboxNumber inputs s1
                  (Settled (OpSubmitFolder arg) (Rejected name)) in
      state s2 = changingFolder /\
      hangups_requested s2 = S (hangups_requested s))) /\
  (let s1 := uncaught (handle domain mailboxNumber "previousMenu" arg s) in
   state s1 = ready /\
   effects s1 = effects s ++ [ReaderCall r "previousMenu" []] /\
   inflight s1 = inflight s) /\
  handle domain mailboxNumber "repeatMenu" arg s
  = Normal (emit (ReaderCall r "repeatMenu" []) s).
Proof.
  destruct s as [st0 buf hu chh cdh ac mb rd q ose odr sh sd infl eff].
  cbn. intros -> ->.
  assert (Hin : OpSubmitFolder arg ∈ infl ++ [OpSubmitFolder arg])
    by (apply elem_of_app; right; by apply list_elem_of_singleton).
  split; [|split].
  - cbn. split; [reflexivity |]. split; [reflexivity |].
    split; [exact Hin |]. split.
    + intros value. rewrite decide_True by exact Hin. sym_eval. reflexivity.
    + intros name. rewrite decide_True by exact Hin. sym_eval.
      split; [reflexivity |]. unfold hangups_requested; cbn.
      rewrite !List.filter_app, !length_app; cbn. lia.
  - sym_eval. repeat split.
  - reflexivity.
Qed.

End Handlers.

(* ===================================================================== *)
(** ** Deferral, verification and folder change in a session *)
(* ===================================================================== *)

Section Sessions.

Variable domain : string.
Variable mailboxNumber : string.
Variable inputs : gmap string StateInputs.

(** C4, as the code has it. Deferral is a queue: in every session an
    [authenticate] resolved in 'auth' is not executed but appended, with
    its argument, to the deferred input, behind whatever is already
    waiting there. When the initialisation succeeds and 'waitingForAuth'
    is entered, the whole queue is taken and every deferred pair is
    replayed in the order of arrival, each once, within the transition
    itself and so before any other event; the queue is empty afterwards,
    and a transition that finds it empty replays nothing. *)
Theorem deferred_authenticate_replayed (evs : list Event) :
  let s := run domain mailboxNumber inputs create evs in
  (forall arg,
     state s = auth ->
     handle domain mailboxNumber "authenticate" arg s
     = Normal (set_eventQueue (eventQueue s ++ [("authenticate", arg)]) s)) /\
  (forall mbox,
     state s = auth -> OpInit ∈ inflight s ->
     let s' := step domain mailboxNumber inputs s
                 (Settled OpInit (Fulfilled mbox)) in
     state s' = waitingForAuth /\
     eventQueue s' = [] /\
     inflight s'
     = settled OpInit (inflight s) ++
       map OpAuthenticate (map snd (eventQueue s)) /\
     effects s'
     = effects s ++ map AuthAuthenticate (map snd (eventQueue s))) /\
  (forall st',
     eventQueue s = [] ->
     let s' := uncaught (transition domain mailboxNumber st' s) in
     verifications_started s' = verifications_started s /\
     eventQueue s' = []).
Proof.
  intros s.
  pose proof (Equipped_session domain mailboxNumber inputs evs)
    as (_ & Hac & _ & _ & _ & _ & Hq).
  fold s in Hac, Hq.
  destruct (deferred_replay_at domain mailboxNumber inputs s)
    as (Hdefer & Hreplay & Hidle).
  split; [|split].
  - intros arg Hst. apply (Hdefer arg Hst).
  - intros mbox Hst Hin. rewrite <- (replayed_all _ Hq).
    apply (Hreplay mbox Hst (Hac Hst) Hin Hq).
  - exact Hidle.
Qed.

(** C5, as the code has it. In every session that is in 'waitingForAuth'
    with a verification of [password] in flight: when it is rejected as
    [InvalidPassword] the state stays 'waitingForAuth', no reader is
    created, the handle is untouched and no hangup is requested, and an
    [authenticate] dispatched afterwards starts a verification whose
    success creates the reader and makes the state 'ready'; when it is
    rejected with any other name, [channel.hangup] is requested once and
    the state is still 'waitingForAuth', also while symbols are dialled
    and when the hangup request settles, and the hangup notification
    makes it 'done'. Nothing holds the session there meanwhile: an
    [authenticate] dispatched after the rejection still starts a
    verification, and its success creates the reader and makes the state
    'ready' without any hangup notification. *)
Theorem verification_rejected (evs : list Event) (password : string) :
  let s := run domain mailboxNumber inputs create evs in
  state s = waitingForAuth ->
  OpAuthenticate password ∈ inflight s ->
  (let s' := step domain mailboxNumber inputs s
               (Settled (OpAuthenticate password)
                  (Rejected "InvalidPassword")) in
   state s' = waitingForAuth /\
   reader s' = reader s /\
   readers_created s' = readers_created s /\
   hangups_requested s' = hangups_requested s /\
   forall retry value,
     let s1 := uncaught (handle domain mailboxNumber "authenticate" retry s')
     in
     let s2 := step domain mailboxNumber inputs s1
                 (Settled (OpAuthenticate retry) (Fulfilled value)) in
     state s1 = waitingForAuth /\
     OpAuthenticate retry ∈ inflight s1 /\
     state s2 = ready /\
     reader s2 = Some (readers_created s) /\
     readers_created s2 = S (readers_created s)) /\
  (forall name,
     name <> "InvalidPassword" ->
     let s' := step domain mailboxNumber inputs s
                 (Settled (OpAuthenticate password) (Rejected name)) in
     state s' = waitingForAuth /\
     reader s' = reader s /\
     hangups_requested s' = S (hangups_requested s) /\
     OpHangup ∈ inflight s' /\
     (forall digits,
        state (run domain mailboxNumber inputs s' (dtmf digits))
        = waitingForAuth) /\
     (forall result,
        state (step domain mailboxNumber inputs s' (Settled OpHangup result))
        = waitingForAuth) /\
     (onStasisEnd s = true ->
      state (step domain mailboxNumber inputs s' StasisEnd) = done) /\
     (forall retry value,
        let s1 := uncaught (handle domain mailboxNumber "authenticate" retry s')
        in
        let s2 := step domain mailboxNumber inputs s1
                    (Settled (OpAuthenticate retry) (Fulfilled value)) in
        OpAuthenticate retry ∈ inflight s1 /\
        state s2 = ready /\
        reader s2 = Some (readers_created s) /\
        hungup s2 = hungup s)).
Proof.
  intros s Hst Hin.
  pose proof (Equipped_session domain mailboxNumber inputs evs)
    as (_ & _ & Hac & _).
  fold s in Hac.
  exact (rejected_verification_at domain mailboxNumber inputs s password
           Hst (Hac Hst) Hin).
Qed.

(** C6. In every session that is in 'changingFolder' the reader is set,
    and: [submit] calls the reader's [submitFolder] with the option and
    leaves the state as it is while the request is in flight; when the
    request succeeds the state becomes 'ready', when it fails
    [channel.hangup] is requested and the state is still
    'changingFolder'. [previousMenu] calls the reader's [previousMenu] and
    the state becomes 'ready'. [repeatMenu] calls the reader's
    [repeatMenu] and the state stays 'changingFolder'. *)
Theorem changingFolder_actions (evs : list Event) (arg : string) :
  let s := run domain mailboxNumber inputs create evs in
  state s = changingFolder ->
  exists r,
    reader s = Some r /\
    (let s1 := uncaught (handle domain mailboxNumber "submit" arg s) in
     handle domain mailboxNumber "submit" arg s
     = Normal (start (OpSubmitFolder arg)
                 (emit (ReaderCall r "submitFolder" [arg]) s)) /\
     state s1 = changingFolder /\
     OpSubmitFolder arg ∈ inflight s1 /\
     (forall value,
        state (step domain mailboxNumber inputs s1
                 (Settled (OpSubmitFolder arg) (Fulfilled value))) = ready) /\
     (forall name,
        let s2 := step domain mailboxNumber inputs s1
                    (Settled (OpSubmitFolder arg) (Rejected name)) in
        state s2 = changingFolder /\
        hangups_requested s2 = S (hangups_requested s))) /\
    (let s1 := uncaught (handle domain mailboxNumber "previousMenu" arg s) in
     state s1 = ready /\
     effects s1 = effects s ++ [ReaderCall r "previousMenu" []] /\
     inflight s1 = inflight s) /\
    handle domain mailboxNumber "repeatMenu" arg s
    = Normal (emit (ReaderCall r "repeatMenu" []) s).
Proof.
  intros s Hst.
  pose proof (Equipped_session domain mailboxNumber inputs evs)
    as (_ & _ & _ & _ & Hrd & _).
  fold s in Hrd. specialize (Hrd Hst).
  destruct (reader s) as [r|] eqn:Hr; [|done].
  exists r. split; [done |].
  exact (folder_actions_at domain mailboxNumber inputs s r arg
           Hst Hr).
Qed.

End Sessions.

(* ===================================================================== *)
(** ** Further properties of the session *)
(* ===================================================================== *)

Section Browsing.

Variable domain : string.
Variable mailboxNumber : string.
Variable inputs : gmap string StateInputs.

(** X1. In every session that is in 'ready' the reader is set, and each of
    [first], [replay], [next], [prev], [delete], [previousMenu] and
    [repeatMenu] calls the reader's method of that name, once and without
    argument, and changes nothing else; [changeFolder] calls the reader's
    [changeFolder], empties the buffer and makes the state
    'changingFolder'. A name the table does not have, such as [submit] or
    [authenticate], is dropped, as long as it is no hook and no inherited
    member; of the hooks, which [handle] finds in the table like any
    handler, [_onEnter] does nothing and [_onExit] empties the buffer. *)
Theorem ready_actions (evs : list Event) (action arg : string) :
  let s := run domain mailboxNumber inputs create evs in
  state s = ready ->
  exists r,
    reader s = Some r /\
    (In action ["first"; "replay"; "next"; "prev"; "delete"; "previousMenu";
                "repeatMenu"] ->
     handle domain mailboxNumber action arg s
     = Normal (emit (ReaderCall r action []) s)) /\
    (handle domain mailboxNumber "changeFolder" arg s
     = Normal (set_state changingFolder
                 (set_buffer [] (emit (ReaderCall r "changeFolder" []) s)))) /\
    (reserved action = false ->
     ~ In action ["first"; "replay"; "next"; "prev"; "delete";
                  "previousMenu"; "repeatMenu"; "changeFolder"] ->
     handle domain mailboxNumber action arg s = Normal s) /\
    handle domain mailboxNumber "_onEnter" arg s = Normal s /\
    handle domain mailboxNumber "_onExit" arg s = Normal (set_buffer [] s).
Proof.
  intros s Hst.
  pose proof (Equipped_session domain mailboxNumber inputs evs)
    as (_ & _ & _ & Hrd & _).
  fold s in Hrd. specialize (Hrd Hst). clearbody s.
  destruct s as [st0 buf hu chh cdh ac mb rd q ose odr sh sd infl eff].
  cbn in *. subst st0. destruct rd as [r|]; [|done].
  exists r. split; [done |]. split; [|split; [|split; [|split]]].
  - intros Hin. simpl in Hin.
    destruct Hin as [<-|[<-|[<-|[<-|[<-|[<-|[<-|[]]]]]]]]; reflexivity.
  - sym_eval; try reflexivity.
  - intros Hres Hnot. simpl in Hnot. rewrite handle_actions by done.
    unfold actions, ready_table; cbn.
    repeat match goal with
    | |- context [String.eqb action ?x] =>
        destruct (String.eqb_spec action x);
        [exfalso; apply Hnot; subst action; tauto |]
    end.
    reflexivity.
  - reflexivity.
  - reflexivity.
Qed.

(** X2. In every session that is in 'auth' while the initialisation of the
    authenticator is in flight: when the initialisation fails, whatever
    the error, [channel.hangup] is requested once, the state stays 'auth',
    also while symbols are dialled, no verification is started and no
    reader appears; the hangup notification then makes the state
    'done'. *)
Theorem initialisation_rejected (evs : list Event) (name : string) :
  let s := run domain mailboxNumber inputs create evs in
  state s = auth ->
  OpInit ∈ inflight s ->
  let s' := step domain mailboxNumber inputs s (Settled OpInit (Rejected name))
  in
  state s' = auth /\
  hangups_requested s' = S (hangups_requested s) /\
  OpHangup ∈ inflight s' /\
  verifications_started s' = verifications_started s /\
  reader s' = reader s /\
  mailbox s' = mailbox s /\
  (forall digits,
     state (run domain mailboxNumber inputs s' (dtmf digits)) = auth) /\
  (onStasisEnd s = true ->
   state (step domain mailboxNumber inputs s' StasisEnd) = done).
Proof.
  intros s Hst Hin s'. clearbody s.
  assert (Hs' : s' = hangup
                       (emit (LoggerError "error initializing authenticator")
                          (set_inflight (settled OpInit (inflight s)) s))).
  { unfold s'. cbn. by rewrite decide_True. }
  clearbody s'. subst s'.
  set (s' := hangup _).
  assert (H : state s' = state s /\
              hangups_requested s' = S (hangups_requested s) /\
              OpHangup ∈ inflight s' /\
              verifications_started s' = verifications_started s /\
              reader s' = reader s /\ mailbox s' = mailbox s /\
              onStasisEnd s' = onStasisEnd s).
  { unfold s'. destruct s.
    unfold hangups_requested, verifications_started; cbn.
    rewrite !List.filter_app, !length_app; cbn. repeat split; try lia.
    apply elem_of_app. right. by apply list_elem_of_singleton. }
  destruct H as (E1 & E2 & E3 & E4 & E5 & E6 & E7).
  split; [congruence |]. repeat split; try done.
  - intros digits. apply dialled_stays; [by right | congruence].
  - intros Hl. apply notified_done. unfold hangup_listeners.
    rewrite E7, Hl. lia.
Qed.

End Browsing.

(* ===================================================================== *)
(** ** Listeners and buffer, step by step *)
(* ===================================================================== *)

Section Frame.

Variable domain : string.
Variable mailboxNumber : string.
Variable inputs : gmap string StateInputs.
Hypothesis Hplain : actions_only inputs = true.

Lemma step_frame (s : Fsm) (ev : Event) :
  Equipped s -> Inv s ->
  forall s', step domain mailboxNumber inputs s ev = s' ->
  (onChannelDtmfReceived s = false -> onChannelDtmfReceived s' = false) /\
  (onStasisEnd s = false -> onStasisEnd s' = false) /\
  (currentDtmfHandler s = false -> currentDtmfHandler s' = false) /\
  (currentHangupHandler s = false -> currentHangupHandler s' = false) /\
  (onChannelDtmfReceived s = true -> state s' <> done ->
   onChannelDtmfReceived s' = true) /\
  (Forgotten s -> Forgotten s') /\
  (Notified s -> Notified s') /\
  (Uncaught ∉ effects s -> Uncaught ∉ effects s') /\
  (buffer s' = [] \/ buffer s' = buffer s \/
   exists digit, ev = ChannelDtmfReceived digit /\
                 buffer s' = buffer s ++ [digit]).
Proof.
  intros Heq Hinv. step_cases s ev Hplain.
  all: intros s' <-; unfold Forgotten, Notified; cbn;
    repeat split; intros; try discriminate; try congruence; try tauto.
  all: try (unfold Equipped in *; cbn in *; exfalso; use_inv;
            first [discriminate | contradiction | congruence]).
  all: try (unfold not in *; intros; equip_hyps;
            try discriminate; try congruence; try tauto; fail).
  all: first [ left; reflexivity
             | right; left; reflexivity
             | right; right; eexists; split; reflexivity ].
Qed.

(** What is kept step by step is kept along a run. *)
Lemma frame_run (Q : Fsm -> Prop) (evs : list Event) (s : Fsm) :
  (forall x ev, Equipped x -> Inv x -> Q x ->
                Q (step domain mailboxNumber inputs x ev)) ->
  Equipped s -> Inv s -> Q s -> Q (run domain mailboxNumber inputs s evs).
Proof.
  intros Hstep. revert s.
  induction evs as [|ev evs IH]; intros s Heq Hinv Hs; simpl; [done |].
  apply IH; [by apply Equipped_step | by apply Inv_step | by apply Hstep].
Qed.

Lemma buffer_sublist (evs : list Event) (s : Fsm) (received : list string) :
  Equipped s -> Inv s ->
  buffer s `sublist_of` received ->
  buffer (run domain mailboxNumber inputs s evs)
  `sublist_of` (received ++ dialled evs).
Proof.
  revert s received.
  induction evs as [|ev evs IH]; intros s received Heq Hinv Hs.
  - simpl. by rewrite app_nil_r.
  - change (run domain mailboxNumber inputs s (ev :: evs))
      with (run domain mailboxNumber inputs
              (step domain mailboxNumber inputs s ev) evs).
    assert (Hd : exists l, dialled (ev :: evs) = l ++ dialled evs /\
                           (forall d, ev = ChannelDtmfReceived d -> l = [d])).
    { destruct ev as [digit| |op result]; simpl.
      - exists [digit]. split; [done |]. by intros d [= ->].
      - by exists [].
      - by exists []. }
    destruct Hd as (l & -> & Hl). rewrite app_assoc.
    apply IH; [by apply Equipped_step | by apply Inv_step |].
    destruct (step_frame s ev Heq Hinv _ eq_refl)
      as (_ & _ & _ & _ & _ & _ & _ & _ & [Hb|[Hb|(d & Hev & Hb)]]);
      rewrite Hb.
    + apply sublist_nil_l.
    + by apply sublist_inserts_r.
    + rewrite (Hl d Hev). by apply sublist_app.
Qed.

End Frame.

Section Listeners.

Variable domain : string.
Variable mailboxNumber : string.
Variable inputs : gmap string StateInputs.

(** X3. When the grammar names action handlers only, the listeners are
    registered once, as the session is created, and never again: no
    listener is on the channel besides the two the instance remembers,
    and once the keypad or the hangup listener is off the channel it
    stays off whatever happens. The keypad listener stays registered
    through every step that does not end in 'done'. In every session that
    is in 'done' both listeners are off the channel and both fields that
    remember them are cleared, and a listener on the channel is always
    one the instance remembers. *)
Theorem listeners_removed_for_good (evs : list Event) :
  actions_only inputs = true ->
  let s := run domain mailboxNumber inputs create evs in
  (staleStasisEnd s = 0 /\ staleChannelDtmfReceived s = 0) /\
  (forall later,
     (onChannelDtmfReceived s = false ->
      dtmf_listeners (run domain mailboxNumber inputs s later) = 0) /\
     (onStasisEnd s = false ->
      hangup_listeners (run domain mailboxNumber inputs s later) = 0)) /\
  (forall ev,
     onChannelDtmfReceived s = true ->
     state (step domain mailboxNumber inputs s ev) <> done ->
     onChannelDtmfReceived (step domain mailboxNumber inputs s ev) = true) /\
  (state s = done ->
   onChannelDtmfReceived s = false /\ onStasisEnd s = false /\
   currentDtmfHandler s = false /\ currentHangupHandler s = false) /\
  (onChannelDtmfReceived s = true -> currentDtmfHandler s = true) /\
  (onStasisEnd s = true -> currentHangupHandler s = true).
Proof.
  intros Hplain s.
  pose proof (Equipped_session domain mailboxNumber inputs evs) as Heq.
  pose proof (Inv_session domain mailboxNumber inputs Hplain evs) as Hinv.
  fold s in Heq, Hinv.
  assert (Hf : Forgotten s).
  { unfold s. apply (frame_run domain mailboxNumber inputs Hplain Forgotten);
      [| apply Equipped_create | apply Inv_create
       | unfold Forgotten; cbn; discriminate].
    intros x ev Hx Hi.
    apply (step_frame domain mailboxNumber inputs Hplain x ev Hx Hi _ eq_refl). }
  pose proof Hinv as (_ & _ & _ & _ & Hdone & Hh & Hd & Hsh & Hsd).
  split; [done |]. split; [|split; [|split; [|split]]].
  - intros later.
    pose proof (Inv_run domain mailboxNumber inputs Hplain later s Heq Hinv)
      as [_ Hlater].
    destruct (Inv_tidy _ Hlater) as [Hlh Hld].
    unfold dtmf_listeners, hangup_listeners. rewrite Hlh, Hld. split.
    + intros Hoff.
      rewrite (frame_run domain mailboxNumber inputs Hplain
                 (fun z => onChannelDtmfReceived z = false) later s);
        try done.
      intros x ev Hx Hi.
      apply (step_frame domain mailboxNumber inputs Hplain x ev Hx Hi _
               eq_refl).
    + intros Hoff.
      rewrite (frame_run domain mailboxNumber inputs Hplain
                 (fun z => onStasisEnd z = false) later s);
        try done.
      intros x ev Hx Hi.
      apply (step_frame domain mailboxNumber inputs Hplain x ev Hx Hi _
               eq_refl).
  - intros ev.
    apply (step_frame domain mailboxNumber inputs Hplain s ev Heq Hinv _
             eq_refl).
  - intros Hst. destruct (Hdone Hst) as [? ?]. destruct (Hf Hst) as [? ?].
    tauto.
  - exact Hd.
  - exact Hh.
Qed.

(** X4. When the grammar names action handlers only, along every event
    sequence the digit buffer holds only symbols that were dialled, in the
    order in which they arrived and none of them twice: it is a sublist
    of the symbols received so far. *)
Theorem buffer_holds_dialled_symbols (evs : list Event) :
  actions_only inputs = true ->
  buffer (run domain mailboxNumber inputs create evs)
  `sublist_of` dialled evs.
Proof.
  intros Hplain.
  apply (buffer_sublist domain mailboxNumber inputs Hplain evs create []).
  - apply Equipped_create.
  - apply Inv_create.
  - apply sublist_nil_l.
Qed.

End Listeners.

(* ===================================================================== *)
(** ** Reader operations *)
(* ===================================================================== *)

Lemma operations_replayed (passwords : list string) :
  List.filter reader_operation (map AuthAuthenticate passwords) = [].
Proof. induction passwords; simpl; auto. Qed.

Ltac silent_solve :=
  unfold Silent, readers_created, reader_operations in *;
  cbn in *;
  rewrite ?List.filter_app, ?length_app, ?created_replayed,
    ?operations_replayed in *;
  cbn in *;
  let Hc := fresh "Hc" in
  intros Hc; try lia;
  match goal with
  | H : ?P -> _ /\ _ |- _ =>
      let HP := fresh "HP" in
      let H1 := fresh "Ha" in
      let H2 := fresh "Hb" in
      assert (HP : P) by lia;
      destruct (H HP) as [H1 H2];
      first [ discriminate H1 | split; [done | lia] ]
  end.

Section Operations.

Variable domain : string.
Variable mailboxNumber : string.
Variable inputs : gmap string StateInputs.

Lemma Silent_move (ev : Event) (x y : Fsm) :
  move domain mailboxNumber inputs ev x y ->
  Equipped x -> Silent x -> Silent y.
Proof.
  intros Hmove Heq Hs. apply Equipped_queue in Heq.
  move_cases Hmove.
  all: intros y <-; try assumption.
  all: silent_solve.
Qed.

Lemma Silent_run (evs : list Event) (s : Fsm) :
  Equipped s -> Silent s -> Silent (run domain mailboxNumber inputs s evs).
Proof.
  revert s. induction evs as [|ev evs IH]; intros s Heq Hs; simpl; [done |].
  apply IH; [by apply Equipped_step |].
  enough (H : Equipped (step domain mailboxNumber inputs s ev) /\
              Silent (step domain mailboxNumber inputs s ev)) by tauto.
  apply (step_lift domain mailboxNumber inputs
           (fun z => Equipped z /\ Silent z)); [|done].
  intros x y Hmove _ [Hx Hsx]. split.
  - by apply (Equipped_move domain mailboxNumber inputs ev x).
  - by apply (Silent_move ev x).
Qed.

(** X5. No method of the mailbox reader is called for a caller who has not
    been verified: along every event sequence, as long as no verification
    has succeeded the count of reader operations is zero, and whenever a
    reader operation has happened a reader had been created before. *)
Theorem reader_operations_need_verification (evs : list Event) :
  let s := run domain mailboxNumber inputs create evs in
  (verifications_fulfilled evs = 0 -> reader_operations s = 0) /\
  (0 < reader_operations s -> 0 < readers_created s).
Proof.
  intros s.
  assert (Hs : Silent s).
  { apply Silent_run; [apply Equipped_create |]. unfold Silent. cbn. tauto. }
  destruct (Counted_run domain mailboxNumber inputs evs create
              Equipped_create Counted_create) as [_ Hle].
  fold s in Hle. change (readers_created create) with 0 in Hle.
  split.
  - intros H0. apply Hs. lia.
  - intros Hop. destruct (Nat.eq_dec (readers_created s) 0) as [Hz|Hz]; [|lia].
    destruct (Hs Hz) as [_ H0]. lia.
Qed.

End Operations.

(* ===================================================================== *)
(** ** The state graph *)
(* ===================================================================== *)

Lemma initialisation_replayed (passwords : list string) :
  List.filter initialisation (map OpAuthenticate passwords) = [].
Proof. induction passwords; simpl; auto. Qed.

(** Turn what is known to be in flight into counts. *)
Ltac count_inits :=
  repeat match goal with
  | H : ?op ∈ ?ops |- _ =>
      let Hc := fresh "Hc" in
      pose proof (settled_count initialisation op ops H) as Hc;
      cbn in Hc; revert H
  end;
  intros.

Ltac late_inflight :=
  match goal with
  | H : no_late ?l, H' : ?op ∈ ?l |- _ =>
      specialize (H op H'); discriminate H
  end.

Ltac single_solve :=
  unfold Single, initialisations_inflight, Inv in *; cbn in *;
  count_inits; use_inv; subst;
  rewrite ?settled_here in *; cbn in *;
  rewrite ?List.filter_app, ?length_app, ?initialisation_replayed,
    ?no_late_app in *;
  cbn in *;
  repeat split; intros;
  try lia; try tauto; try discriminate; try late_inflight; close;
  try (match goal with
       | H : ?P -> _ /\ _ |- _ =>
           let HP := fresh "HP" in
           assert (HP : P) by lia;
           destruct (H HP) as [[?|?] ?];
           try discriminate; try late_inflight; close
       end).

Section Edges.

Variable domain : string.
Variable mailboxNumber : string.
Variable inputs : gmap string StateInputs.
Hypothesis Hplain : actions_only inputs = true.

Lemma Single_step (s : Fsm) (ev : Event) :
  Equipped s -> Inv s ->
  forall s', step domain mailboxNumber inputs s ev = s' ->
  Single s -> Single s'.
Proof.
  intros Heq Hinv. step_cases s ev Hplain.
  all: intros s' <- Hs; try assumption.
  all: clear Heq; single_solve.
Qed.

Lemma Single_create : Single create.
Proof.
  unfold Single, initialisations_inflight; cbn. split; [lia | intros; lia].
Qed.

Lemma Single_session (evs : list Event) :
  Single (run domain mailboxNumber inputs create evs).
Proof.
  apply (frame_run domain mailboxNumber inputs Hplain Single);
    [| apply Equipped_create | apply Inv_create | apply Single_create].
  intros x ev Hx Hi. by apply (Single_step x ev Hx Hi _ eq_refl).
Qed.

Lemma step_edge (s : Fsm) (ev : Event) :
  Equipped s -> Inv s ->
  forall s', step domain mailboxNumber inputs s ev = s' ->
  Single s ->
  state s' = state s \/ edge (state s) (state s') = true.
Proof.
  intros Heq Hinv. step_cases s ev Hplain.
  all: intros s' <- Hs; cbn.
  all: clear Heq.
  all: first
    [ left; reflexivity
    | right; reflexivity
    | exfalso;
      unfold Single, initialisations_inflight, Inv in *; cbn in *;
      count_inits; norm_hyps;
      try late_inflight; try tauto;
      match goal with
      | H : ?P -> _ /\ _ |- _ =>
          let HP := fresh "HP" in
          assert (HP : P) by lia;
          destruct (H HP) as [[?|?] ?]; discriminate
      end ].
Qed.

End Edges.

Section Graph.

Variable domain : string.
Variable mailboxNumber : string.
Variable inputs : gmap string StateInputs.

(** X6. When the grammar names action handlers only, in every session the
    state changes only along the state table: forward through 'init',
    'auth', 'waitingForAuth' and 'ready', back and forth between 'ready'
    and 'changingFolder', and to 'done' from every state; the only other
    changes are those of a continuation that runs after 'done', which
    lead to 'auth', 'waitingForAuth' or 'ready'. No step ever leads back
    to 'init', skips a state of the forward path, or enters
    'changingFolder' from anywhere but 'ready'. *)
Theorem state_changes_follow_table (evs : list Event) (ev : Event) :
  actions_only inputs = true ->
  let s := run domain mailboxNumber inputs create evs in
  let s' := step domain mailboxNumber inputs s ev in
  (state s' = state s \/ edge (state s) (state s') = true) /\
  (state s' = init -> state s = init) /\
  (state s' = changingFolder ->
   state s = changingFolder \/ state s = ready).
Proof.
  intros Hplain s s'.
  assert (He : state s' = state s \/ edge (state s) (state s') = true).
  { apply (step_edge domain mailboxNumber inputs Hplain s ev).
    - apply Equipped_session.
    - by apply Inv_session.
    - reflexivity.
    - by apply Single_session. }
  split; [exact He |]. split.
  - intros Hi. destruct He as [He|He]; [congruence |].
    rewrite Hi in He. destruct (state s); discriminate.
  - intros Hc. destruct He as [He|He]; [left; congruence |].
    rewrite Hc in He. destruct (state s); try discriminate. by right.
Qed.

End Graph.

(* ===================================================================== *)
(** ** Requests for hangup *)
(* ===================================================================== *)

Lemma hangup_replayed (passwords : list string) :
  List.filter hangup_requested (map AuthAuthenticate passwords) = [].
Proof. induction passwords; simpl; auto. Qed.

Section Hangup.

Variable domain : string.
Variable mailboxNumber : string.
Variable inputs : gmap string StateInputs.

Lemma hangups_move (ev : Event) (x y : Fsm) :
  move domain mailboxNumber inputs ev x y ->
  Equipped x ->
  hangups_requested y
  <= hangups_requested x + (if fatal ev then 1 else 0) /\
  (fatal ev = true -> hangups_requested y = S (hangups_requested x)).
Proof.
  intros Hmove Heq.
  assert (Hq := Equipped_queue _ Heq).
  move_cases Hmove.
  all: intros y <-;
    unfold hangups_requested, Equipped in *; cbn in *;
    rewrite ?List.filter_app, ?length_app, ?hangup_replayed; cbn;
    try (match goal with
         | H : String.eqb _ "InvalidPassword" = _ |- _ => rewrite H
         end); cbn;
    (split; [try lia | intros Hf; try discriminate Hf; try lia]).
  all: try (exfalso; use_inv;
            first [discriminate | contradiction | congruence]).
Qed.

Lemma step_hangups (s : Fsm) (ev : Event) :
  Equipped s ->
  hangups_requested (step domain mailboxNumber inputs s ev)
  <= hangups_requested s + (if fatal ev then 1 else 0).
Proof.
  intros Heq.
  enough (H : Equipped (step domain mailboxNumber inputs s ev) /\
              hangups_requested (step domain mailboxNumber inputs s ev)
              <= hangups_requested s + (if fatal ev then 1 else 0)) by tauto.
  apply (step_lift domain mailboxNumber inputs
           (fun z => Equipped z /\
                     hangups_requested z
                     <= hangups_requested s + (if fatal ev then 1 else 0))).
  - intros x y Hmove Hx [Hxe Hxle].
    split; [by apply (Equipped_move domain mailboxNumber inputs ev x) |].
    destruct (hangups_move ev x y Hmove Hxe) as [Hyle _].
    destruct ev as [digit| |op result]; simpl in *; try lia.
    rewrite (Hx op result eq_refl) in Hyle. done.
  - split; [done |]. destruct (fatal ev); lia.
Qed.

Lemma hangups_run (evs : list Event) (s : Fsm) :
  Equipped s ->
  hangups_requested (run domain mailboxNumber inputs s evs)
  <= hangups_requested s + failures evs.
Proof.
  revert s. induction evs as [|ev evs IH]; intros s Heq; simpl.
  - unfold failures; simpl. lia.
  - pose proof (step_hangups s ev Heq) as Hle.
    specialize (IH _ (Equipped_step domain mailboxNumber inputs s ev Heq)).
    unfold failures in *; simpl. destruct (fatal ev); simpl; lia.
Qed.

(** X7. The channel is asked to hang up only when a request fails: along
    every event sequence [channel.hangup] has been requested at most as
    often as an initialisation, a folder submission or a verification
    (other than with [InvalidPassword]) was rejected, so never in a
    session in which no request fails; each such rejection of a request
    in flight adds exactly one hangup request; and how the hangup request
    itself settles changes neither the state nor what is called. *)
Theorem hangup_requested_on_failure_only (evs : list Event) :
  let s := run domain mailboxNumber inputs create evs in
  hangups_requested s <= failures evs /\
  (forall op result,
     fatal (Settled op result) = true -> op ∈ inflight s ->
     hangups_requested
       (step domain mailboxNumber inputs s (Settled op result))
     = S (hangups_requested s)) /\
  (forall result,
     let s' := step domain mailboxNumber inputs s (Settled OpHangup result) in
     state s' = state s /\ effects s' = effects s /\ buffer s' = buffer s).
Proof.
  intros s.
  pose proof (Equipped_session domain mailboxNumber inputs evs) as Heq.
  fold s in Heq.
  split; [|split].
  - apply (hangups_run evs create). apply Equipped_create.
  - intros op result Hf Hin.
    apply (hangups_move (Settled op result) s); [|done | done].
    apply move_settle; [done |]. simpl. by rewrite decide_True.
  - intros result. cbn. destruct (decide (OpHangup ∈ inflight s)); done.
Qed.

End Hangup.

(* ===================================================================== *)
(** ** Bringing the session up *)
(* ===================================================================== *)

Lemma bootstrap_replayed (passwords : list string) :
  List.filter bootstrap (map AuthAuthenticate passwords) = [].
Proof. induction passwords; simpl; auto. Qed.

Section Boot.

Variable domain : string.
Variable mailboxNumber : string.
Variable inputs : gmap string StateInputs.
Hypothesis Hplain : actions_only inputs = true.

Lemma Booted_step (s : Fsm) (ev : Event) :
  Equipped s -> Inv s ->
  forall s', step domain mailboxNumber inputs s ev = s' ->
  Booted domain mailboxNumber s -> Booted domain mailboxNumber s'.
Proof.
  intros Heq Hinv. step_cases s ev Hplain.
  all: intros s' <- Hb; try assumption.
  all: clear Heq.
  all: unfold Booted, bootstrap_calls, Inv in *; cbn in *;
    rewrite ?List.filter_app, ?bootstrap_replayed, ?app_nil_r in *; cbn in *;
    destruct Hb as [Hb1 Hb2];
    (split; [intros Hin; use_inv; subst; rewrite ?settled_here in *;
             norm_hyps; try discriminate; try tauto |]).
  all: try exact Hb2.
  all: try (right; rewrite Hb1 by assumption; reflexivity).
Qed.

Lemma Booted_session (evs : list Event) :
  Booted domain mailboxNumber (run domain mailboxNumber inputs create evs).
Proof.
  apply (frame_run domain mailboxNumber inputs Hplain
           (Booted domain mailboxNumber));
    [| apply Equipped_create | apply Inv_create
     | unfold Booted; cbn; split; [done | by left]].
  intros x ev Hx Hi. by apply (Booted_step x ev Hx Hi _ eq_refl).
Qed.

End Boot.

Section Bootstrap.

Variable domain : string.
Variable mailboxNumber : string.
Variable inputs : gmap string StateInputs.

(** X8. When the grammar names action handlers only, a session is brought
    up once and in order. Along every event sequence the calls made to
    bring it up are the request to answer the channel, alone while that
    request is in flight, and after it at most one creation of the
    authenticator followed by its initialisation with the domain and the
    mailbox number the session was created for: the channel is never
    answered twice and the authenticator never created or initialised a
    second time. *)
Theorem brought_up_once (evs : list Event) :
  actions_only inputs = true ->
  let s := run domain mailboxNumber inputs create evs in
  (bootstrap_calls s = [ChannelAnswer] \/
   bootstrap_calls s
   = [ChannelAnswer; AuthCreate; AuthInit domain mailboxNumber]) /\
  (OpAnswer ∈ inflight s -> bootstrap_calls s = [ChannelAnswer]) /\
  (state s = init -> bootstrap_calls s = [ChannelAnswer]).
Proof.
  intros Hplain s.
  pose proof (Booted_session domain mailboxNumber inputs Hplain evs) as Hb.
  pose proof (Inv_session domain mailboxNumber inputs Hplain evs)
    as (_ & Hi & _).
  fold s in Hb, Hi. destruct Hb as [Hb1 Hb2].
  split; [exact Hb2 |]. split; [exact Hb1 |].
  intros Hst. apply Hb1, Hi, Hst.
Qed.

End Bootstrap.

(* ===================================================================== *)
(** ** Before the authenticator is initialised *)
(* ===================================================================== *)

Ltac unauth_solve :=
  unfold Unauthenticated, verifications_started, readers_created,
    reader_operations in *;
  cbn in *;
  repeat match goal with
  | H : _ /\ _ |- _ => destruct H
  end;
  try late_inflight;
  try (match goal with
       | H : _ \/ _ \/ _ |- _ => destruct H as [?|[?|?]]; discriminate
       end);
  rewrite ?List.filter_app, ?length_app, ?no_late_app in *; cbn in *;
  subst;
  repeat split; try tauto; try lia; try discriminate; close.

Section Uninitialised.

Variable domain : string.
Variable mailboxNumber : string.
Variable inputs : gmap string StateInputs.

Lemma Unauthenticated_move (ev : Event) (x y : Fsm) :
  move domain mailboxNumber inputs ev x y ->
  initialisation_fulfilled ev = false ->
  Equipped x -> Unauthenticated x -> Unauthenticated y.
Proof.
  intros Hmove Hev Heq Hu. apply Equipped_queue in Heq.
  move_cases Hmove.
  all: intros y <-; try assumption; try discriminate Hev.
  all: unauth_solve.
Qed.

Lemma Unauthenticated_run (evs : list Event) (s : Fsm) :
  Forall (fun ev => initialisation_fulfilled ev = false) evs ->
  Equipped s -> Unauthenticated s ->
  Unauthenticated (run domain mailboxNumber inputs s evs).
Proof.
  intros Hevs. revert s.
  induction Hevs as [|ev evs Hev _ IH]; intros s Heq Hu; simpl; [done |].
  apply IH; [by apply Equipped_step |].
  enough (H : Equipped (step domain mailboxNumber inputs s ev) /\
              Unauthenticated (step domain mailboxNumber inputs s ev))
    by tauto.
  apply (step_lift domain mailboxNumber inputs
           (fun z => Equipped z /\ Unauthenticated z)); [|done].
  intros x y Hmove _ [Hx Hux]. split.
  - by apply (Equipped_move domain mailboxNumber inputs ev x).
  - by apply (Unauthenticated_move ev x).
Qed.

(** X9. Without a successful initialisation of the authenticator nobody
    gets in: along every event sequence in which no initialisation is
    fulfilled, the session is in 'init', 'auth' or 'done', no verification
    has been started (an [authenticate] resolved meanwhile only waits in
    the queue), no reader has been created and no reader method has been
    called. *)
Theorem no_reader_without_initialisation (evs : list Event) :
  Forall (fun ev => initialisation_fulfilled ev = false) evs ->
  let s := run domain mailboxNumber inputs create evs in
  (state s = init \/ state s = auth \/ state s = done) /\
  verifications_started s = 0 /\
  readers_created s = 0 /\
  reader_operations s = 0 /\
  reader s = None.
Proof.
  intros Hevs s.
  assert (Hu : Unauthenticated s).
  { apply Unauthenticated_run; [done | apply Equipped_create |].
    unfold Unauthenticated; cbn.
    repeat split; try tauto. apply no_late_answer. }
  destruct Hu as (H1 & _ & H2 & H3 & H4 & H5). tauto.
Qed.

End Uninitialised.

(* ===================================================================== *)
(** ** What handlers rely on, and hangup while idle *)
(* ===================================================================== *)

Section Idle.

Variable domain : string.
Variable mailboxNumber : string.
Variable inputs : gmap string StateInputs.
Hypothesis Hplain : actions_only inputs = true.

Lemma Quiet_session (evs : list Event) :
  Uncaught ∉ effects (run domain mailboxNumber inputs create evs).
Proof.
  apply (frame_run domain mailboxNumber inputs Hplain
           (fun z => Uncaught ∉ effects z));
    [| apply Equipped_create | apply Inv_create |].
  - intros x ev Hx Hi.
    apply (step_frame domain mailboxNumber inputs Hplain x ev Hx Hi _ eq_refl).
  - cbn. by intros H%list_elem_of_singleton.
Qed.

Lemma Notified_session (evs : list Event) :
  Notified (run domain mailboxNumber inputs create evs).
Proof.
  apply (frame_run domain mailboxNumber inputs Hplain Notified);
    [| apply Equipped_create | apply Inv_create |].
  - intros x ev Hx Hi.
    apply (step_frame domain mailboxNumber inputs Hplain x ev Hx Hi _ eq_refl).
  - unfold Notified; cbn. discriminate.
Qed.

(** The hangup notification on an instance of a session. *)
Lemma notified_step (s : Fsm) :
  Inv s -> onStasisEnd s = true ->
  let s' := step domain mailboxNumber inputs s StasisEnd in
  state s' = done /\ hungup s' = true /\
  hangup_listeners s' = 0 /\ dtmf_listeners s' = 0 /\
  effects s' = effects s /\ inflight s' = inflight s /\
  reader s' = reader s /\ eventQueue s' = eventQueue s.
Proof.
  intros Hinv. destruct s as [st0 buf hu chh cdh ac mb rd q ose odr sh sd infl eff].
  unfold Inv in Hinv; cbn in *. intros ->.
  destruct Hinv as (_ & _ & _ & _ & Hd & Hh & Hk & -> & ->).
  rewrite (Hh eq_refl) in *.
  unfold hangup_listeners, dtmf_listeners; cbn.
  destruct odr, cdh; try (specialize (Hk eq_refl); discriminate).
  all: destruct st0; sym_eval; cbn; try tauto.
  all: destruct (Hd eq_refl); discriminate.
Qed.

End Idle.

Section Safety.

Variable domain : string.
Variable mailboxNumber : string.
Variable inputs : gmap string StateInputs.

(** X10. No handler of a session runs into a missing collaborator: along
    every event sequence the authenticator is set whenever the session is
    in 'waitingForAuth' or an initialisation is in flight, the reader is
    set whenever the session is in 'ready' or 'changingFolder' or a
    folder is being submitted, and nothing but [authenticate] is ever
    deferred. So when the grammar names action handlers only, no
    [TypeError] escapes. *)
Theorem handlers_find_their_collaborators (evs : list Event) :
  let s := run domain mailboxNumber inputs create evs in
  (actions_only inputs = true -> Uncaught ∉ effects s) /\
  (state s = waitingForAuth \/ OpInit ∈ inflight s -> authContext s = true) /\
  ((state s = ready \/ state s = changingFolder \/
    (exists option, OpSubmitFolder option ∈ inflight s)) ->
   reader s <> None) /\
  Forall (fun item => fst item = "authenticate") (eventQueue s).
Proof.
  intros s.
  pose proof (Equipped_session domain mailboxNumber inputs evs)
    as (Hi & _ & Hw & Hr & Hc & Hs & Hq).
  fold s in Hi, Hw, Hr, Hc, Hs, Hq.
  split; [|split; [|split; [|exact Hq]]].
  - intros Hplain. by apply Quiet_session.
  - intros [H|H]; auto.
  - intros [H|[H|[option H]]]; eauto.
Qed.

(** X11. When the grammar names action handlers only, a hangup
    notification that reaches a session with no request in flight ends it
    for good: the state becomes 'done' with [hungup] set, nothing is
    called on any collaborator, and no later event of any kind changes
    the instance, so no reader operation follows. *)
Theorem idle_hangup_is_final (evs later : list Event) :
  actions_only inputs = true ->
  let s := run domain mailboxNumber inputs create evs in
  onStasisEnd s = true ->
  inflight s = [] ->
  let s' := step domain mailboxNumber inputs s StasisEnd in
  state s' = done /\ hungup s' = true /\ effects s' = effects s /\
  run domain mailboxNumber inputs s' later = s'.
Proof.
  intros Hplain s Hon Hfl s'.
  destruct (notified_step domain mailboxNumber inputs s)
    as (Hs & Hh & Hl & Hd & He & Hi & _); try done.
  { by apply Inv_session. }
  fold s' in Hs, Hh, Hl, Hd, He, Hi.
  repeat split; try done.
  apply Spent_run. unfold Spent. rewrite Hi, Hfl. tauto.
Qed.

End Safety.

(* ===================================================================== *)
(** ** A menu of single keys and a key it does not know *)
(* ===================================================================== *)

Lemma length_append (s1 s2 : string) :
  String.length (String.append s1 s2) = String.length s1 + String.length s2.
Proof. induction s1 as [|c s1 IH]; simpl; [done | by rewrite IH]. Qed.

Lemma length_concat (digits : list string) :
  symbols digits -> String.length (String.concat "" digits) = length digits.
Proof.
  induction 1 as [|d digits Hd Hds IH]; [done |].
  destruct digits as [|d' digits]; [simpl; done |].
  change (String.concat "" (d :: d' :: digits))
    with (String.append d (String.concat "" (d' :: digits))).
  rewrite length_append, Hd, IH. reflexivity.
Qed.

Lemma resolve_literal_only (st : StateInputs) (input : string) :
  literal_only st -> String.length input <> 1 -> resolve st input = None.
Proof.
  intros [Hr Hk] Hlen. unfold resolve. rewrite Hr.
  destruct (keys st !! input) as [action|] eqn:Hin; [|done].
  destruct Hlen. by apply (Hk input action).
Qed.

Section Menu.

Variable domain : string.
Variable mailboxNumber : string.
Variable inputs : gmap string StateInputs.

(** One call of the keypad listener on a blocked menu. *)
Lemma blocked_call (s : Fsm) (st : StateInputs) (digit : string) :
  inputs !! state_name (state s) = Some st ->
  literal_only st ->
  buffer s <> [] -> symbols (buffer s) -> String.length digit = 1 ->
  dtmfHandler domain mailboxNumber inputs digit s
  = Normal (set_buffer (buffer s ++ [digit]) s).
Proof.
  intros Hst Hlit Hne Hb Hd.
  unfold dtmfHandler. rewrite Hst. cbn.
  rewrite resolve_literal_only; [done | done |].
  rewrite length_concat.
  - rewrite length_app. simpl. destruct (buffer s); [done | simpl; lia].
  - apply Forall_app. split; [done |]. by apply Forall_cons.
Qed.

(** All the listeners on the channel append the symbol, one after the
    other. *)
Lemma blocked_round (n : nat) (s : Fsm) (st : StateInputs) (digit : string) :
  inputs !! state_name (state s) = Some st ->
  literal_only st ->
  buffer s <> [] -> symbols (buffer s) -> String.length digit = 1 ->
  deliver n (dtmfHandler domain mailboxNumber inputs digit) s
  = Normal (set_buffer (buffer s ++ replicate n digit) s).
Proof.
  intros Hst Hlit. revert s Hst.
  induction n as [|n IH]; intros s Hst Hne Hb Hd.
  - simpl. rewrite app_nil_r. by destruct s.
  - simpl. rewrite (blocked_call s st digit) by done. simpl.
    rewrite IH.
    + destruct s; cbn. by rewrite <- app_assoc.
    + by destruct s.
    + destruct s; cbn in *. intros [E _]%app_eq_nil. by apply Hne.
    + destruct s; cbn in *. apply Forall_app. split; [done |].
      by apply Forall_cons.
    + done.
Qed.

(** X12. A key the menu does not know blocks a menu of single keys. In a
    state whose grammar entry has no pattern rule and only one-symbol keys
    (as for 'ready'), once the buffer holds a symbol, every further symbol
    is only appended to it, once by each keypad listener on the channel:
    nothing is resolved or dispatched, the state and all else stay as
    they are, however many symbols follow. *)
Theorem unknown_key_blocks_literal_menu
    (s : Fsm) (st : StateInputs) (digits : list string) :
  inputs !! state_name (state s) = Some st ->
  literal_only st ->
  buffer s <> [] -> symbols (buffer s) -> symbols digits ->
  run domain mailboxNumber inputs s (dtmf digits)
  = set_buffer
      (buffer s ++ flat_map (replicate (dtmf_listeners s)) digits) s.
Proof.
  intros Hst Hlit Hne Hb Hds. revert s Hst Hne Hb.
  induction Hds as [|d digits Hd _ IH]; intros s Hst Hne Hb.
  - simpl. rewrite app_nil_r. by destruct s.
  - change (run domain mailboxNumber inputs s (dtmf (d :: digits)))
      with (run domain mailboxNumber inputs
              (step domain mailboxNumber inputs s (ChannelDtmfReceived d))
              (dtmf digits)).
    assert (Hstep : step domain mailboxNumber inputs s (ChannelDtmfReceived d)
                    = set_buffer
                        (buffer s ++ replicate (dtmf_listeners s) d) s).
    { simpl. by rewrite (blocked_round _ s st d). }
    rewrite Hstep, IH.
    + destruct s; cbn. by rewrite <- app_assoc.
    + by destruct s.
    + destruct s; cbn in *. intros [E _]%app_eq_nil. by apply Hne.
    + destruct s; cbn in *. apply Forall_app. split; [done |].
      by apply Forall_replicate.
Qed.

End Menu.

(* ===================================================================== *)
(** ** The hangup notification *)
(* ===================================================================== *)

Section Notification.

Variable domain : string.
Variable mailboxNumber : string.
Variable inputs : gmap string StateInputs.

(** X13. When the grammar names action handlers only, in every session
    the hangup notification, while its listener is registered, makes the
    state 'done' whatever the state was, sets [hungup], leaves no
    listener of the session on the channel and calls nothing; requests
    in flight, the reader and the deferred input are left as they are.
    It is delivered at most once: a session with [hungup] set has no
    hangup listener, and a further notification changes nothing. *)
Theorem hangup_notification_ends_session (evs : list Event) :
  actions_only inputs = true ->
  let s := run domain mailboxNumber inputs create evs in
  (onStasisEnd s = true ->
   let s' := step domain mailboxNumber inputs s StasisEnd in
   state s' = done /\ hungup s' = true /\
   hangup_listeners s' = 0 /\ dtmf_listeners s' = 0 /\
   effects s' = effects s /\ inflight s' = inflight s /\
   reader s' = reader s /\ eventQueue s' = eventQueue s) /\
  (hungup s = true ->
   hangup_listeners s = 0 /\
   step domain mailboxNumber inputs s StasisEnd = s).
Proof.
  intros Hplain s.
  pose proof (Inv_session domain mailboxNumber inputs Hplain evs) as Hinv.
  fold s in Hinv. split.
  - by apply notified_step.
  - intros Hh.
    pose proof (Notified_session domain mailboxNumber inputs Hplain evs) as Hn.
    fold s in Hn. specialize (Hn Hh).
    destruct (Inv_tidy _ Hinv) as [Hsh _].
    assert (Hl : hangup_listeners s = 0).
    { unfold hangup_listeners. by rewrite Hsh, Hn. }
    split; [done |]. simpl. rewrite Hl. simpl.
    destruct s; cbn in *. by subst.
Qed.

(** X14. With the auth helper of the unit tests a wrong password is not
    an [InvalidPassword]: the error it rejects with has the name [Error].
    So in every session that is in 'waitingForAuth', when the
    verification of a password other than [1111] settles as the helper
    settles it, [channel.hangup] is requested and the state stays
    'waitingForAuth'; the verification of [1111] creates the reader and
    makes the state 'ready'. Likewise an initialisation in 'auth' for a
    domain other than [domain.com] ends in a hangup request. *)
Theorem mock_auth_rejections_hang_up (evs : list Event) (password : string) :
  let s := run domain mailboxNumber inputs create evs in
  (state s = waitingForAuth ->
   OpAuthenticate password ∈ inflight s ->
   let s' := step domain mailboxNumber inputs s
               (Settled (OpAuthenticate password)
                  (mock_authenticate password)) in
   (password <> "1111" ->
    state s' = waitingForAuth /\
    hangups_requested s' = S (hangups_requested s) /\
    reader s' = reader s) /\
   (password = "1111" ->
    state s' = ready /\ reader s' = Some (readers_created s))) /\
  (state s = auth ->
   OpInit ∈ inflight s ->
   domain <> "domain.com" ->
   let s' := step domain mailboxNumber inputs s
               (Settled OpInit (mock_init domain)) in
   state s' = auth /\ hangups_requested s' = S (hangups_requested s)).
Proof.
  intros s. clearbody s.
  destruct s as [st0 buf hu chh cdh ac mb rd q ose odr sh sd infl eff].
  cbn. split.
  - intros -> Hin. rewrite decide_True by done. split.
    + intros Hne. apply String.eqb_neq in Hne.
      unfold mock_authenticate. rewrite Hne. cbn.
      unfold hangups_requested; cbn.
      rewrite !List.filter_app, !length_app; cbn.
      repeat split. lia.
    + intros ->. cbn. sym_eval. tauto.
  - intros -> Hin Hne. rewrite decide_True by done.
    apply String.eqb_neq in Hne. unfold mock_init. rewrite Hne. cbn.
    unfold hangups_requested; cbn.
    rewrite !List.filter_app, !length_app; cbn.
    split; [done | lia].
Qed.

End Notification.

(* ===================================================================== *)
(** ** Listeners under any grammar *)
(* ===================================================================== *)

Lemma answers_replayed (passwords : list string) :
  List.filter answer_requested (map AuthAuthenticate passwords) = [].
Proof. induction passwords; simpl; auto. Qed.

Section Registration.

Variable domain : string.
Variable mailboxNumber : string.
Variable inputs : gmap string StateInputs.

Lemma Registered_move (ev : Event) (x y : Fsm) :
  move domain mailboxNumber inputs ev x y ->
  Equipped x -> Registered x ->
  Registered y /\ staleChannelDtmfReceived x <= staleChannelDtmfReceived y.
Proof.
  intros Hmove Heq Hr. apply Equipped_queue in Heq.
  move_cases Hmove.
  all: intros y <-.
  all: unfold Registered, answers_requested, hangup_listeners,
         dtmf_listeners in *; cbn in *;
    rewrite ?List.filter_app, ?length_app, ?answers_replayed in *; cbn in *.
  all: repeat match goal with
       | H : context [if ?b then _ else _] |- _ => is_var b; destruct b
       | |- context [if ?b then _ else _] => is_var b; destruct b
       end; cbn in *; lia.
Qed.

Lemma Registered_step (s : Fsm) (ev : Event) :
  Equipped s -> Registered s ->
  Registered (step domain mailboxNumber inputs s ev) /\
  staleChannelDtmfReceived s
  <= staleChannelDtmfReceived (step domain mailboxNumber inputs s ev).
Proof.
  intros Heq Hr.
  enough (H : Equipped (step domain mailboxNumber inputs s ev) /\
              Registered (step domain mailboxNumber inputs s ev) /\
              staleChannelDtmfReceived s
              <= staleChannelDtmfReceived
                   (step domain mailboxNumber inputs s ev)) by tauto.
  apply (step_lift domain mailboxNumber inputs
           (fun z => Equipped z /\ Registered z /\
                     staleChannelDtmfReceived s
                     <= staleChannelDtmfReceived z)).
  - intros x y Hmove _ (Hxe & Hxr & Hxle).
    split; [by apply (Equipped_move domain mailboxNumber inputs ev x) |].
    destruct (Registered_move ev x y Hmove Hxe Hxr) as [Hyr Hyle].
    split; [done | lia].
  - split; [done |]. split; [done | lia].
Qed.

Lemma Registered_run (evs : list Event) (s : Fsm) :
  Equipped s -> Registered s ->
  Registered (run domain mailboxNumber inputs s evs) /\
  staleChannelDtmfReceived s
  <= staleChannelDtmfReceived (run domain mailboxNumber inputs s evs).
Proof.
  revert s. induction evs as [|ev evs IH]; intros s Heq Hr; simpl; [done |].
  destruct (Registered_step s ev Heq Hr) as [Hr' Hle].
  destruct (IH _ (Equipped_step domain mailboxNumber inputs s ev Heq) Hr')
    as [Hr'' Hle'].
  split; [done | lia].
Qed.

(** X15. Under any grammar, along every event sequence the listeners of
    the session on the channel were all registered by the entry hook of
    'init': there are never more hangup listeners, nor more keypad
    listeners, than [channel.answer] was requested. A keypad listener the
    instance no longer refers to is never removed again: their number
    only grows, so from then on keypad symbols reach the instance in
    every state, 'done' included. *)
Theorem listeners_come_from_entry_hook (evs later : list Event) :
  let s := run domain mailboxNumber inputs create evs in
  let s' := run domain mailboxNumber inputs s later in
  hangup_listeners s <= answers_requested s /\
  dtmf_listeners s <= answers_requested s /\
  staleChannelDtmfReceived s <= staleChannelDtmfReceived s' /\
  staleChannelDtmfReceived s <= dtmf_listeners s'.
Proof.
  intros s s'.
  assert (Hr : Registered s).
  { apply Registered_run; [apply Equipped_create |].
    unfold Registered; cbn. lia. }
  pose proof (Equipped_session domain mailboxNumber inputs evs) as Heq.
  fold s in Heq.
  destruct (Registered_run later s Heq Hr) as [_ Hle]. fold s' in Hle.
  destruct Hr as [Hh Hd]. repeat split; try done.
  unfold dtmf_listeners. lia.
Qed.

End Registration.

(* ===================================================================== *)
(** ** Concrete sessions *)
(* ===================================================================== *)

(** C1, evaluated on the code: 'done' is left again. A caller hangs up
    while the password is being verified: the notification sets [hungup],
    makes the state 'done' and removes both listeners. When the
    verification then succeeds, its continuation creates the reader and
    makes the state 'ready'. The same happens when the hangup arrives
    while the call is being answered: the state goes from 'done' to
    'auth' and the authenticator is initialised. An action dispatched in
    'done' itself is only logged. *)
Theorem done_left_when_request_settles :
  (let s := hung_up_during_verification in
   let s' := step "domain.com" "1234" mailboxReader s (verified "1111") in
   state s = done /\ hungup s = true /\ reader s = None /\
   onStasisEnd s = false /\ onChannelDtmfReceived s = false /\
   state s' = ready /\ reader s' = Some 0 /\ readers_created s' = 1) /\
  (let s := step "domain.com" "1234" mailboxReader create StasisEnd in
   let s' := step "domain.com" "1234" mailboxReader s answered in
   state s = done /\ state s' = auth /\ inflight s' = [OpInit]) /\
  (let s := hung_up_during_verification in
   handle "domain.com" "1234" "first" "1" s
   = Normal (emit (LoggerError "called handle on spent fsm") s)).
Proof. vm_compute. repeat split. Qed.

Lemma dtmfHandler_resolution_witness :
  dtmfHandler "domain.com" "1234" mailboxReader "4" typed_hash_123
  = handle "domain.com" "1234" "authenticate" "#1234"
      (set_buffer [] (set_buffer ["#"; "1"; "2"; "3"; "4"] typed_hash_123)).
Proof.
  assert (Hst : mailboxReader !! state_name (state typed_hash_123)
                = Some waitingForAuth_inputs) by (vm_compute; reflexivity).
  pose proof (proj1 (dtmfHandler_resolution "domain.com" "1234" mailboxReader
                       typed_hash_123 waitingForAuth_inputs "4" Hst)) as H.
  specialize (H {| rule_match := four_digits; rule_action := "authenticate" |}
                eq_refl).
  rewrite H.
  - vm_compute. reflexivity.
  - apply test_found. vm_compute. reflexivity.
Defined.

(** The claim C2 at this input: the content [#1234] is not a word of the
    pattern and is no key of the literal map, so the resolver of the
    specification resolves nothing; the code resolves [authenticate] from
    the part [1234] and passes the whole content on as the password. *)
Lemma resolver_matches_substring :
  state typed_hash_123 = waitingForAuth /\
  buffer typed_hash_123 = ["#"; "1"; "2"; "3"] /\
  ~ Regex.matches (Regex.body four_digits) (list_ascii_of_string "#1234") /\
  keys waitingForAuth_inputs !! "#1234" = None /\
  resolve_entire waitingForAuth_inputs "#1234" = None /\
  resolve waitingForAuth_inputs "#1234" = Some "authenticate" /\
  let s' := step "domain.com" "1234" mailboxReader typed_hash_123
              (ChannelDtmfReceived "4") in
  buffer s' = [] /\ inflight s' = [OpAuthenticate "#1234"].
Proof.
  repeat split; try (vm_compute; reflexivity).
  intros H%whole_matches. vm_compute in H. discriminate.
Qed.

Lemma dtmf_without_grammar_entry_witness :
  step "domain.com" "1234" mailboxReader create (ChannelDtmfReceived "1")
  = create.
Proof.
  assert (Hst : mailboxReader !! state_name (state create) = None)
    by (vm_compute; reflexivity).
  exact (proj2 (dtmf_without_grammar_entry "domain.com" "1234" mailboxReader
                  create "1" Hst)).
Defined.

(** The claim C3 at this input: two symbols dialled in 'auth' are still in
    the buffer when 'auth' is left and 'waitingForAuth' is entered. *)
Lemma buffer_kept_across_auth_exit :
  let s := run "domain.com" "1234" mailboxReader_early create
             ([answered] ++ dtmf ["1"; "2"]) in
  let s' := step "domain.com" "1234" mailboxReader_early s initialised in
  state s = auth /\ buffer s = ["1"; "2"] /\
  state s' = waitingForAuth /\ buffer s' = ["1"; "2"].
Proof. vm_compute. repeat split. Qed.

Lemma buffer_cleared_on_resolution_and_exit_witness :
  buffer (step "domain.com" "1234" mailboxReader
            (run "domain.com" "1234" mailboxReader create
               ([answered; initialised] ++ dtmf ["1"; "1"; "1"; "1"]))
            (verified "1111")) = [].
Proof.
  pose proof (buffer_cleared_on_resolution_and_exit
                "domain.com" "1234" mailboxReader) as (_ & _ & H & _).
  apply H.
  - vm_compute. reflexivity.
  - vm_compute. discriminate.
  - left. vm_compute. reflexivity.
Defined.

(** The claim C4 at this input: eight digits dialled in 'auth' leave two
    deferred pairs waiting at once. *)
Lemma two_deferred_at_once :
  let s := run "domain.com" "1234" mailboxReader_early create
             ([answered] ++
              dtmf ["1"; "1"; "1"; "1"; "2"; "2"; "2"; "2"]) in
  state s = auth /\
  eventQueue s = [("authenticate", "1111"); ("authenticate", "2222")] /\
  inflight (step "domain.com" "1234" mailboxReader_early s initialised)
  = [OpAuthenticate "1111"; OpAuthenticate "2222"].
Proof. vm_compute. repeat split. Qed.

Lemma deferred_authenticate_replayed_witness :
  let s' := step "domain.com" "1234" mailboxReader_early early_caller
              (Settled OpInit (Fulfilled "1234")) in
  state s' = waitingForAuth /\
  eventQueue s' = [] /\
  inflight s'
  = settled OpInit (inflight early_caller) ++
    map OpAuthenticate (map snd (eventQueue early_caller)) /\
  effects s'
  = effects early_caller ++
    map AuthAuthenticate (map snd (eventQueue early_caller)).
Proof.
  unfold early_caller.
  refine (proj1 (proj2 (deferred_authenticate_replayed
                          "domain.com" "1234" mailboxReader_early
                          ([answered] ++ dtmf ["1"; "1"; "1"; "1"])))
            "1234" _ _).
  - vm_compute. reflexivity.
  - vm_compute. apply list_elem_of_singleton. reflexivity.
Defined.

(** The claim C5 at this input: the verification of [2222] fails with an
    error other than [InvalidPassword], so [channel.hangup] is requested;
    the caller then dials [1111], that verification succeeds, and the
    session is in 'ready' with a reader. No hangup notification has
    arrived. *)
Lemma ready_after_fatal_rejection :
  let rejected := step "domain.com" "1234" mailboxReader password_sent
                    (Settled (OpAuthenticate "2222") (Rejected "Error")) in
  let s := run "domain.com" "1234" mailboxReader rejected
             (dtmf ["1"; "1"; "1"; "1"] ++ [verified "1111"]) in
  state rejected = waitingForAuth /\ hangups_requested rejected = 1 /\
  state s = ready /\ reader s = Some 0 /\ hungup s = false /\
  onStasisEnd s = true.
Proof. vm_compute. repeat split. Qed.

Lemma verification_rejected_witness :
  let s' := step "domain.com" "1234" mailboxReader password_sent
              (Settled (OpAuthenticate "2222") (Rejected "Error")) in
  let s1 := uncaught (handle "domain.com" "1234" "authenticate" "1111" s') in
  let s2 := step "domain.com" "1234" mailboxReader s1 (verified "1111") in
  state s' = waitingForAuth /\
  hangups_requested s' = S (hangups_requested password_sent) /\
  state s2 = ready /\
  reader s2 = Some (readers_created password_sent).
Proof.
  unfold password_sent.
  pose proof (verification_rejected "domain.com" "1234" mailboxReader
                ([answered; initialised] ++ dtmf ["2"; "2"; "2"; "2"])
                "2222") as H.
  cbv zeta in H. destruct H as [_ H].
  - vm_compute. reflexivity.
  - vm_compute. apply list_elem_of_singleton. reflexivity.
  - destruct (H "Error") as (H1 & _ & H3 & _ & _ & _ & _ & H8);
      [discriminate |].
    destruct (H8 "1111" "") as (_ & R2 & R3 & _).
    cbv zeta. unfold verified. tauto.
Defined.

Lemma changingFolder_actions_witness :
  exists r,
    reader choosing_folder = Some r /\
    handle "domain.com" "1234" "repeatMenu" "*" choosing_folder
    = Normal (emit (ReaderCall r "repeatMenu" []) choosing_folder).
Proof.
  unfold choosing_folder.
  destruct (changingFolder_actions "domain.com" "1234" mailboxReader
              ([answered; initialised] ++ dtmf ["1"; "1"; "1"; "1"] ++
               [verified "1111"] ++ dtmf ["2"]) "*")
    as (r & Hr & _ & _ & Hrepeat).
  - vm_compute. reflexivity.
  - exists r. split; [exact Hr | exact Hrepeat].
Defined.

Lemma init_answers_or_is_done_witness :
  let failed := run "domain.com" "1234" mailboxReader create
                  (dtmf ["1"] ++ [Settled OpAnswer (Rejected "Error")]) in
  state failed = done /\
  hangups_requested failed = 0 /\
  run "domain.com" "1234" mailboxReader failed [StasisEnd; answered] = failed.
Proof.
  pose proof (proj2 (proj2 (init_answers_or_is_done "domain.com" "1234"
                              mailboxReader ["1"])) "Error") as H.
  cbv zeta in H |- *. destruct H as (H1 & H2 & H3).
  split; [exact H1 |]. split; [exact H2 |].
  apply H3. vm_compute. reflexivity.
Defined.

(** The claim C8 at this input: the password is dialled twice before the
    first verification settles, both verifications succeed, and two
    readers are created. *)
Lemma two_readers_created :
  let s := run "domain.com" "1234" mailboxReader create
             ([answered; initialised] ++
              dtmf ["1"; "1"; "1"; "1"; "1"; "1"; "1"; "1"] ++
              [verified "1111"; verified "1111"]) in
  state s = ready /\ readers_created s = 2 /\ reader s = Some 1.
Proof. vm_compute. repeat split. Qed.

Lemma reader_created_by_verification_witness :
  reader (run "domain.com" "1234" mailboxReader create
            ([answered; initialised] ++ dtmf ["2"; "2"; "2"; "2"] ++
             [Settled (OpAuthenticate "2222") (Rejected "InvalidPassword")]))
  = None.
Proof.
  refine (proj1 (reader_created_by_verification "domain.com" "1234"
                   mailboxReader _) _).
  vm_compute. reflexivity.
Defined.

Lemma hungup_set_by_notification_only_witness :
  hungup (step "domain.com" "1234" mailboxReader password_sent StasisEnd)
  = true.
Proof.
  refine (proj1 (proj2 (proj2 (hungup_set_by_notification_only
                                 "domain.com" "1234" mailboxReader
                                 password_sent StasisEnd))) _).
  vm_compute. lia.
Defined.

(* ===================================================================== *)
(** ** Further concrete sessions *)
(* ===================================================================== *)

Lemma ready_inputs_literal_only : literal_only ready_inputs.
Proof.
  split; [reflexivity |]. intros key action Hk.
  unfold ready_inputs in Hk. cbn [keys] in Hk.
  apply elem_of_list_to_map_2 in Hk.
  repeat (apply elem_of_cons in Hk as [[= -> _]|Hk]; [reflexivity |]).
  by apply elem_of_nil in Hk.
Qed.

Lemma ready_actions_witness :
  exists r,
    reader browsing = Some r /\
    handle "domain.com" "1234" "first" "1" browsing
    = Normal (emit (ReaderCall r "first" []) browsing).
Proof.
  unfold browsing.
  destruct (ready_actions "domain.com" "1234" mailboxReader
              ([answered; initialised] ++ dtmf ["1"; "1"; "1"; "1"] ++
               [verified "1111"]) "first" "1")
    as (r & Hr & Hcall & _).
  - vm_compute. reflexivity.
  - exists r. split; [exact Hr |]. apply Hcall. simpl. tauto.
Defined.

Lemma initialisation_rejected_witness :
  let s := run "domain.com" "1234" mailboxReader create [answered] in
  let s' := step "domain.com" "1234" mailboxReader s
              (Settled OpInit (Rejected "Error")) in
  state s' = auth /\ hangups_requested s' = S (hangups_requested s).
Proof.
  pose proof (initialisation_rejected "domain.com" "1234" mailboxReader
                [answered] "Error") as H.
  cbv zeta in H |- *.
  destruct H as (H1 & H2 & _).
  - vm_compute. reflexivity.
  - vm_compute. apply list_elem_of_singleton. reflexivity.
  - split; [exact H1 | exact H2].
Defined.

Lemma listeners_removed_for_good_witness :
  onChannelDtmfReceived hung_up_during_verification = false /\
  onStasisEnd hung_up_during_verification = false /\
  currentDtmfHandler hung_up_during_verification = false /\
  currentHangupHandler hung_up_during_verification = false.
Proof.
  unfold hung_up_during_verification.
  pose proof (listeners_removed_for_good "domain.com" "1234" mailboxReader
                ([answered; initialised] ++ dtmf ["1"; "1"; "1"; "1"] ++
                 [StasisEnd])) as H.
  cbv zeta in H. destruct H as (_ & _ & _ & H & _).
  - vm_compute. reflexivity.
  - apply H. vm_compute. reflexivity.
Defined.

Lemma buffer_holds_dialled_symbols_witness :
  buffer (run "domain.com" "1234" mailboxReader create
            ([answered; initialised] ++ dtmf ["#"; "1"; "2"; "3"]))
  `sublist_of` dialled ([answered; initialised] ++ dtmf ["#"; "1"; "2"; "3"]).
Proof.
  apply (buffer_holds_dialled_symbols "domain.com" "1234" mailboxReader).
  vm_compute. reflexivity.
Defined.

Lemma reader_operations_need_verification_witness :
  reader_operations
    (run "domain.com" "1234" mailboxReader create
       ([answered; initialised] ++ dtmf ["1"; "2"; "#"])) = 0.
Proof.
  pose proof (reader_operations_need_verification
                "domain.com" "1234" mailboxReader
                ([answered; initialised] ++ dtmf ["1"; "2"; "#"])) as H.
  cbv zeta in H. destruct H as [H _].
  apply H. vm_compute. reflexivity.
Defined.

Lemma state_changes_follow_table_witness :
  state (run "domain.com" "1234" mailboxReader create []) = init.
Proof.
  pose proof (state_changes_follow_table "domain.com" "1234" mailboxReader
                [] (ChannelDtmfReceived "1")) as H.
  cbv zeta in H. destruct H as (_ & H & _).
  - vm_compute. reflexivity.
  - apply H. vm_compute. reflexivity.
Defined.

Lemma hangup_requested_on_failure_only_witness :
  let s := run "domain.com" "1234" mailboxReader create [answered] in
  hangups_requested
    (step "domain.com" "1234" mailboxReader s
       (Settled OpInit (Rejected "Error")))
  = S (hangups_requested s).
Proof.
  pose proof (hangup_requested_on_failure_only "domain.com" "1234"
                mailboxReader [answered]) as H.
  cbv zeta in H |- *. destruct H as (_ & H & _).
  apply H.
  - reflexivity.
  - vm_compute. apply list_elem_of_singleton. reflexivity.
Defined.

Lemma brought_up_once_witness :
  bootstrap_calls (run "domain.com" "1234" mailboxReader create [])
  = [ChannelAnswer].
Proof.
  pose proof (brought_up_once "domain.com" "1234" mailboxReader []) as H.
  cbv zeta in H. destruct H as (_ & _ & H).
  - vm_compute. reflexivity.
  - apply H. vm_compute. reflexivity.
Defined.

Lemma no_reader_without_initialisation_witness :
  let s := run "domain.com" "1234" mailboxReader_early create
             ([answered] ++ dtmf ["1"; "1"; "1"; "1"] ++
              [Settled OpInit (Rejected "Error")]) in
  (state s = init \/ state s = auth \/ state s = done) /\
  verifications_started s = 0 /\
  readers_created s = 0 /\
  reader_operations s = 0 /\
  reader s = None.
Proof.
  apply (no_reader_without_initialisation "domain.com" "1234"
           mailboxReader_early).
  cbn [app dtmf map List.map]. repeat constructor.
Defined.

Lemma handlers_find_their_collaborators_witness : reader browsing <> None.
Proof.
  unfold browsing.
  pose proof (handlers_find_their_collaborators "domain.com" "1234"
                mailboxReader
                ([answered; initialised] ++ dtmf ["1"; "1"; "1"; "1"] ++
                 [verified "1111"])) as H.
  cbv zeta in H. destruct H as (_ & _ & H & _).
  apply H. left. vm_compute. reflexivity.
Defined.

Lemma idle_hangup_is_final_witness :
  let s' := step "domain.com" "1234" mailboxReader browsing StasisEnd in
  state s' = done /\ hungup s' = true /\ effects s' = effects browsing /\
  run "domain.com" "1234" mailboxReader s' (dtmf ["1"]) = s'.
Proof.
  unfold browsing.
  apply (idle_hangup_is_final "domain.com" "1234" mailboxReader
           ([answered; initialised] ++ dtmf ["1"; "1"; "1"; "1"] ++
            [verified "1111"]) (dtmf ["1"])).
  - vm_compute. reflexivity.
  - vm_compute. reflexivity.
  - vm_compute. reflexivity.
Defined.

Lemma unknown_key_blocks_literal_menu_witness :
  run "domain.com" "1234" mailboxReader pressed_9 (dtmf ["1"; "5"])
  = set_buffer (buffer pressed_9 ++ ["1"; "5"]) pressed_9.
Proof.
  rewrite (unknown_key_blocks_literal_menu "domain.com" "1234" mailboxReader
             pressed_9 ready_inputs ["1"; "5"]).
  - vm_compute. reflexivity.
  - vm_compute. reflexivity.
  - exact ready_inputs_literal_only.
  - vm_compute. discriminate.
  - vm_compute. repeat constructor.
  - repeat constructor.
Defined.

Lemma hangup_notification_ends_session_witness :
  let s' := step "domain.com" "1234" mailboxReader password_sent StasisEnd in
  state s' = done /\ hungup s' = true /\
  hangup_listeners s' = 0 /\ dtmf_listeners s' = 0 /\
  effects s' = effects password_sent /\
  inflight s' = inflight password_sent /\
  reader s' = reader password_sent /\
  eventQueue s' = eventQueue password_sent.
Proof.
  unfold password_sent.
  pose proof (hangup_notification_ends_session "domain.com" "1234"
                mailboxReader
                ([answered; initialised] ++ dtmf ["2"; "2"; "2"; "2"])) as H.
  cbv zeta in H. destruct H as [H _].
  - vm_compute. reflexivity.
  - apply H. vm_compute. reflexivity.
Defined.

Lemma mock_auth_rejections_hang_up_witness :
  let s' := step "domain.com" "1234" mailboxReader password_sent
              (Settled (OpAuthenticate "2222") (mock_authenticate "2222")) in
  state s' = waitingForAuth /\
  hangups_requested s' = S (hangups_requested password_sent) /\
  reader s' = reader password_sent.
Proof.
  unfold password_sent.
  pose proof (mock_auth_rejections_hang_up "domain.com" "1234" mailboxReader
                ([answered; initialised] ++ dtmf ["2"; "2"; "2"; "2"])
                "2222") as H.
  cbv zeta in H. destruct H as [H _].
  apply H.
  - vm_compute. reflexivity.
  - vm_compute. apply list_elem_of_singleton. reflexivity.
  - discriminate.
Defined.
